(** * The data-restore dispatcher of myloader

    A shallow embedding of [src/myloader/myloader_worker_loader_main.c]:
    the ready-table queue, the two-tier job selection
    [give_me_next_data_job_conf], the wake-up helpers and the control-job
    thread [worker_loader_main_thread].

    Conventions of the embedding.
    - A [struct db_table *] or [struct database *] is an index into a heap
      ([tables], [databases]) carried by the state, so that the ready queue,
      the loading list and the dispatcher all alias the same table records.
    - The code is embedded as the single dispatcher thread sees it:
      [table_lock], [table_unlock] and the [g_mutex_*] calls are not
      represented, and the state between two calls may have been changed
      arbitrarily by other threads.
    - A result of [None] stands for an execution the C code has no defined
      behaviour for (a dangling pointer, the head of an empty [GList], a
      [NULL] queue or mutex handed to GLib).
    - [trace] and [g_debug] print nothing the dispatcher reads back and are
      left out, with the locals used only by them; what is kept of a
      [g_debug] is the pointer dereference made to evaluate its arguments
      ([dbt->database->target_database] on a dispatch). *)

From Stdlib Require Import ZArith NArith Lia.
From stdpp Require Import base option list.

Local Open Scope N_scope.

(** ** Machine integers *)

(** [guint]: 32-bit unsigned, [x++] wraps. *)
Definition guint_inc (x : N) : N := (x + 1) mod 4294967296.

(** [guint64]: the statistics counters. *)
Definition guint64_inc (x : N) : N := (x + 1) mod 18446744073709551616.

(** [gint] as used by [g_atomic_int_inc]: 32-bit two's complement. *)
Definition gint_inc (x : Z) : Z :=
  ((x + 1 + 2147483648) mod 4294967296 - 2147483648)%Z.

(** ** Data model *)

Abbreviation ptr := nat (only parsing).

(** Modelled from the spec: [enum schema_status] is declared in a header that
    is not part of the sources at hand; the spec lists its values in
    increasing order as NOT_FOUND, NOT_CREATED, CREATING, CREATED, DATA_DONE,
    ALL_DONE. *)
Inductive schema_status :=
  | NOT_FOUND | NOT_CREATED | CREATING | CREATED | DATA_DONE | ALL_DONE.

Definition schema_status_value (st : schema_status) : N :=
  match st with
  | NOT_FOUND => 0 | NOT_CREATED => 1 | CREATING => 2
  | CREATED => 3 | DATA_DONE => 4 | ALL_DONE => 5
  end.

(** C compares the enumerators as integers. *)
Definition status_eq (a b : schema_status) : bool :=
  schema_status_value a =? schema_status_value b.
Definition status_ge (a b : schema_status) : bool :=
  schema_status_value b <=? schema_status_value a.

(** Modelled from the spec: [enum data_control_type] comes from the same
    missing header; the spec fixes the set of control events. *)
Inductive data_control_type :=
  | REQUEST_DATA_JOB | WAKE_DATA_THREAD | FILE_TYPE_SCHEMA_ENDED
  | FILE_TYPE_ENDED | SHUTDOWN.

(** [struct restore_job]: [rj_id] identifies the job, [drj_live] tells whether
    the payload [data.drj] is still allocated ([g_free] clears it). *)
Record restore_job := mk_restore_job {
  rj_id : N;
  drj_live : bool
}.

Definition g_free_drj (j : restore_job) : restore_job :=
  {| rj_id := rj_id j; drj_live := false |}.

(** [struct database], the one field the dispatcher reads. *)
Record database := mk_database {
  database_schema_state : schema_status
}.

(** [struct db_table], the fields the dispatcher reads or writes. *)
Record db_table := mk_db_table {
  table_database : ptr;                 (* dbt->database *)
  schema_state : schema_status;
  job_count : N;                        (* guint *)
  current_threads : N;                  (* guint *)
  max_threads : N;                      (* guint *)
  in_ready_queue : bool;
  no_data : bool;                       (* object_to_export.no_data *)
  is_view : bool;
  is_sequence : bool;
  restore_job_list : list restore_job;  (* GList of pending jobs *)
  remaining_jobs : Z                    (* gint, read atomically *)
}.

Definition set_in_ready_queue (b : bool) (d : db_table) : db_table :=
  {| table_database := table_database d; schema_state := schema_state d;
     job_count := job_count d; current_threads := current_threads d;
     max_threads := max_threads d; in_ready_queue := b;
     no_data := no_data d; is_view := is_view d; is_sequence := is_sequence d;
     restore_job_list := restore_job_list d;
     remaining_jobs := remaining_jobs d |}.

Definition set_schema_state (st : schema_status) (d : db_table) : db_table :=
  {| table_database := table_database d; schema_state := st;
     job_count := job_count d; current_threads := current_threads d;
     max_threads := max_threads d; in_ready_queue := in_ready_queue d;
     no_data := no_data d; is_view := is_view d; is_sequence := is_sequence d;
     restore_job_list := restore_job_list d;
     remaining_jobs := remaining_jobs d |}.

Definition set_restore_job_list (l : list restore_job) (d : db_table)
  : db_table :=
  {| table_database := table_database d; schema_state := schema_state d;
     job_count := job_count d; current_threads := current_threads d;
     max_threads := max_threads d; in_ready_queue := in_ready_queue d;
     no_data := no_data d; is_view := is_view d; is_sequence := is_sequence d;
     restore_job_list := l;
     remaining_jobs := remaining_jobs d |}.

(** The three assignments of a dispatch:
    [restore_job_list = g_list_delete_link(..)], [job_count--],
    [current_threads++].  [job_count--] is only reached with
    [job_count > 0], where the unsigned decrement does not wrap. *)
Definition take_job (rest : list restore_job) (d : db_table) : db_table :=
  {| table_database := table_database d; schema_state := schema_state d;
     job_count := job_count d - 1;
     current_threads := guint_inc (current_threads d);
     max_threads := max_threads d; in_ready_queue := in_ready_queue d;
     no_data := no_data d; is_view := is_view d; is_sequence := is_sequence d;
     restore_job_list := rest;
     remaining_jobs := remaining_jobs d |}.

(** Calls that leave this file, in the order they are made.  The two calls
    of the FILE_TYPE_ENDED case carry what the callee can see, at the time
    of the call, of the globals this case writes: the flag
    [all_jobs_are_enqueued] and the content of [data_control_queue]. *)
Inductive event :=
  | Ev_enqueue_index_for_dbt_if_possible (p : ptr)
  | Ev_data_job_push (j : restore_job)      (* data_job_push(DATA_JOB, rj) *)
  | Ev_data_ended
  | Ev_refresh_table_list
      (flag_seen : bool) (queue_seen : option (list data_control_type))
  | Ev_enqueue_indexes_if_possible
      (flag_seen : bool) (queue_seen : option (list data_control_type))
  | Ev_wait_loader_threads_to_finish
  | Ev_start_optimize_keys_all_tables.

Record statistics := mk_statistics {
  jobs_dispatched : N;
  dispatch_iterations : N;
  queue_hits : N;
  queue_misses : N
}.

(** Everything the dispatcher can see: the globals of the file, the fields of
    [struct configuration] it uses, the heap, the local [rj] of the control
    thread (written through the out-parameter of
    [give_me_next_data_job_conf]) and the calls made so far. *)
Record state := mk_state {
  control_job_ended : bool;
  all_jobs_are_enqueued : bool;
  data_control_queue : option (list data_control_type);   (* NULL = None *)
  threads_waiting : N;
  threads_waiting_mutex : bool;          (* false while the pointer is NULL *)
  stats : statistics;
  ready_table_queue : option (list ptr);                  (* NULL = None *)
  loading_table_list : list ptr;
  tables_all_done : Z;
  tables : list db_table;
  databases : list database;
  rj : option restore_job;                                (* NULL = None *)
  calls : list event
}.

Definition set_control_job_ended (b : bool) (s : state) : state :=
  mk_state b (all_jobs_are_enqueued s) (data_control_queue s)
    (threads_waiting s) (threads_waiting_mutex s) (stats s)
    (ready_table_queue s) (loading_table_list s) (tables_all_done s)
    (tables s) (databases s) (rj s) (calls s).

Definition set_all_jobs_are_enqueued (b : bool) (s : state) : state :=
  mk_state (control_job_ended s) b (data_control_queue s)
    (threads_waiting s) (threads_waiting_mutex s) (stats s)
    (ready_table_queue s) (loading_table_list s) (tables_all_done s)
    (tables s) (databases s) (rj s) (calls s).

Definition set_data_control_queue (q : option (list data_control_type))
  (s : state) : state :=
  mk_state (control_job_ended s) (all_jobs_are_enqueued s) q
    (threads_waiting s) (threads_waiting_mutex s) (stats s)
    (ready_table_queue s) (loading_table_list s) (tables_all_done s)
    (tables s) (databases s) (rj s) (calls s).

Definition set_threads_waiting (n : N) (s : state) : state :=
  mk_state (control_job_ended s) (all_jobs_are_enqueued s)
    (data_control_queue s) n (threads_waiting_mutex s) (stats s)
    (ready_table_queue s) (loading_table_list s) (tables_all_done s)
    (tables s) (databases s) (rj s) (calls s).

Definition set_stats (st : statistics) (s : state) : state :=
  mk_state (control_job_ended s) (all_jobs_are_enqueued s)
    (data_control_queue s) (threads_waiting s) (threads_waiting_mutex s) st
    (ready_table_queue s) (loading_table_list s) (tables_all_done s)
    (tables s) (databases s) (rj s) (calls s).

Definition set_ready_table_queue (q : option (list ptr)) (s : state) : state :=
  mk_state (control_job_ended s) (all_jobs_are_enqueued s)
    (data_control_queue s) (threads_waiting s) (threads_waiting_mutex s)
    (stats s) q (loading_table_list s) (tables_all_done s)
    (tables s) (databases s) (rj s) (calls s).

Definition set_loading_table_list (l : list ptr) (s : state) : state :=
  mk_state (control_job_ended s) (all_jobs_are_enqueued s)
    (data_control_queue s) (threads_waiting s) (threads_waiting_mutex s)
    (stats s) (ready_table_queue s) l (tables_all_done s)
    (tables s) (databases s) (rj s) (calls s).

Definition set_tables_all_done (n : Z) (s : state) : state :=
  mk_state (control_job_ended s) (all_jobs_are_enqueued s)
    (data_control_queue s) (threads_waiting s) (threads_waiting_mutex s)
    (stats s) (ready_table_queue s) (loading_table_list s) n
    (tables s) (databases s) (rj s) (calls s).

Definition set_tables (t : list db_table) (s : state) : state :=
  mk_state (control_job_ended s) (all_jobs_are_enqueued s)
    (data_control_queue s) (threads_waiting s) (threads_waiting_mutex s)
    (stats s) (ready_table_queue s) (loading_table_list s) (tables_all_done s)
    t (databases s) (rj s) (calls s).

Definition set_rj (j : option restore_job) (s : state) : state :=
  mk_state (control_job_ended s) (all_jobs_are_enqueued s)
    (data_control_queue s) (threads_waiting s) (threads_waiting_mutex s)
    (stats s) (ready_table_queue s) (loading_table_list s) (tables_all_done s)
    (tables s) (databases s) j (calls s).

Definition set_calls (c : list event) (s : state) : state :=
  mk_state (control_job_ended s) (all_jobs_are_enqueued s)
    (data_control_queue s) (threads_waiting s) (threads_waiting_mutex s)
    (stats s) (ready_table_queue s) (loading_table_list s) (tables_all_done s)
    (tables s) (databases s) (rj s) c.

(** Writing through a [struct db_table *]. *)
Definition store_table (p : ptr) (d : db_table) (s : state) : state :=
  set_tables (<[p := d]> (tables s)) s.

Definition call (e : event) (s : state) : state :=
  set_calls (calls s ++ [e]) s.

(** ** Collaborators outside this file *)

(** Modelled from the spec: [enqueue_index_for_dbt_if_possible] is defined in
    the index worker; the spec describes it as a non-blocking hand-off of
    the table to the index executor. *)
Definition enqueue_index_for_dbt_if_possible (p : ptr) (s : state) : state :=
  call (Ev_enqueue_index_for_dbt_if_possible p) s.

(** Modelled from the spec: [data_job_push(DATA_JOB, rj)] pushes the job onto
    the job channel drained by the data workers. *)
Definition data_job_push (j : restore_job) (s : state) : state :=
  call (Ev_data_job_push j) s.

(** Modelled from the spec: [data_ended] signals the end of the data phase. *)
Definition data_ended (s : state) : state := call Ev_data_ended s.

(** Modelled from the spec: [refresh_table_list] guarantees that every table
    the parser has seen (here: every table of the heap) is in the loading
    list, and is idempotent.  The call is logged with the flag and the
    control queue as they are when it is made. *)
Definition refresh_table_list (s : state) : state :=
  let missing :=
    filter (fun p => p ∉ loading_table_list s) (seq 0 (length (tables s))) in
  call (Ev_refresh_table_list (all_jobs_are_enqueued s)
          (data_control_queue s))
    (set_loading_table_list (loading_table_list s ++ missing) s).

(** Modelled from the spec: [enqueue_indexes_if_possible] hands the tables
    that are already done over to the index executor.  The call is logged
    with the flag and the control queue as they are when it is made. *)
Definition enqueue_indexes_if_possible (s : state) : state :=
  call (Ev_enqueue_indexes_if_possible (all_jobs_are_enqueued s)
          (data_control_queue s)) s.

(** Modelled from the spec: after the loop the thread waits for all data
    workers to finish. *)
Definition wait_loader_threads_to_finish (s : state) : state :=
  call Ev_wait_loader_threads_to_finish s.

(** Modelled from the spec: the index executor is then told to optimize the
    keys of all tables. *)
Definition start_optimize_keys_all_tables (s : state) : state :=
  call Ev_start_optimize_keys_all_tables s.

(** ** The control queue and the wake-up helpers *)

Definition data_control_queue_push (ft : data_control_type) (s : state)
  : state :=
  match data_control_queue s with
  | None => s
  | Some q => set_data_control_queue (Some (q ++ [ft])) s
  end.

(** The body of [while (threads_waiting > 0)] in [wake_threads_waiting];
    the decrement is guarded by the loop test and does not wrap. *)
Definition wake_one_waiting (s : state) : state :=
  let s1 := data_control_queue_push REQUEST_DATA_JOB s in
  set_threads_waiting (threads_waiting s1 - 1) s1.

(** The loop itself; it is entered with as much fuel as there are threads
    waiting, which [wake_threads_waiting_drains] shows to be enough for the
    loop test to fail at exit. *)
Fixpoint wake_loop (fuel : nat) (s : state) : state :=
  match fuel with
  | O => s
  | S fuel' =>
      if 0 <? threads_waiting s then wake_loop fuel' (wake_one_waiting s)
      else s
  end.

Definition wake_threads_waiting (s : state) : state :=
  if threads_waiting_mutex s
  then wake_loop (N.to_nat (threads_waiting s)) s
  else s.

Definition wake_data_threads (s : state) : state :=
  if threads_waiting_mutex s then
    if 0 <? threads_waiting s
    then data_control_queue_push WAKE_DATA_THREAD s
    else s
  else s.

(** ** The ready-table queue *)

(** The readiness test of [enqueue_table_if_ready_locked]. *)
Definition table_is_ready (d : db_table) : bool :=
  status_eq (schema_state d) CREATED &&
  (0 <? job_count d) &&
  (current_threads d <? max_threads d) &&
  negb (in_ready_queue d) &&
  negb (no_data d) &&
  negb (is_view d) &&
  negb (is_sequence d).

Definition enqueue_table_if_ready_locked (p : ptr) (s : state)
  : option state :=
  match ready_table_queue s with
  | None => Some s
  | Some q =>
      d ← tables s !! p;
      if table_is_ready d then
        let s1 := store_table p (set_in_ready_queue true d) s in
        let s2 := set_ready_table_queue (Some (q ++ [p])) s1 in
        Some (wake_data_threads s2)
      else Some s
  end.

Definition enqueue_table_if_ready (p : ptr) (s : state) : option state :=
  enqueue_table_if_ready_locked p s.

(** ** [give_me_next_data_job_conf] *)

(** The re-validation made on a table popped from the ready queue. *)
Definition no_longer_ready (d : db_table) : bool :=
  negb (status_eq (schema_state d) CREATED) ||
  (job_count d =? 0) ||
  (max_threads d <=? current_threads d) ||
  no_data d ||
  is_view d ||
  is_sequence d.

(** The "special case" of the fast path: a table without work left. *)
Definition queue_data_done (aje : bool) (d : db_table) : bool :=
  status_eq (schema_state d) CREATED &&
  (job_count d =? 0) &&
  (current_threads d =? 0) &&
  aje &&
  (remaining_jobs d =? 0)%Z.

(** The same test in the fallback scan, reached with
    [schema_state == CREATED] and [job_count > 0] false. *)
Definition scan_data_done (aje : bool) (d : db_table) : bool :=
  aje && (current_threads d =? 0) && (remaining_jobs d =? 0)%Z.

Definition count_miss (s : state) : state :=
  let st := stats s in
  set_stats (mk_statistics (jobs_dispatched st) (dispatch_iterations st)
               (queue_hits st) (guint64_inc (queue_misses st))) s.

Definition count_hit (s : state) : state :=
  let st := stats s in
  set_stats (mk_statistics (jobs_dispatched st) (dispatch_iterations st)
               (guint64_inc (queue_hits st)) (queue_misses st)) s.

Definition count_dispatch (s : state) : state :=
  let st := stats s in
  set_stats (mk_statistics (guint64_inc (jobs_dispatched st))
               (dispatch_iterations st) (queue_hits st) (queue_misses st)) s.

Definition count_iteration (s : state) : state :=
  let st := stats s in
  set_stats (mk_statistics (jobs_dispatched st)
               (guint64_inc (dispatch_iterations st))
               (queue_hits st) (queue_misses st)) s.

(** How the loop over the ready queue is left. *)
Inductive queue_outcome :=
  | Dispatched (s : state)      (* [return giveup] inside the loop *)
  | QueueEmpty (s : state).     (* [g_async_queue_try_pop] gave NULL *)

(** [while ((dbt = g_async_queue_try_pop(conf->ready_table_queue)) != NULL)].
    [q] is the content of the queue when the loop test is evaluated; the pop
    leaves [q'] in the state, on which a re-enqueue then pushes. *)
Fixpoint ready_queue_loop (q : list ptr) (s : state) : option queue_outcome :=
  match q with
  | [] => Some (QueueEmpty s)
  | p :: q' =>
      let s0 := set_ready_table_queue (Some q') s in
      d0 ← tables s0 !! p;
      let d := set_in_ready_queue false d0 in
      if no_longer_ready d then
        let s1 := count_miss s0 in
        if queue_data_done (all_jobs_are_enqueued s1) d then
          ready_queue_loop q'
            (enqueue_index_for_dbt_if_possible p
               (store_table p (set_schema_state DATA_DONE d) s1))
        else
          ready_queue_loop q' (store_table p d s1)
      else
        let s1 := count_hit s0 in
        match restore_job_list d with
        | [] => None
        | job :: rest =>
            let s2 := count_dispatch (store_table p (take_job rest d) s1) in
            (* g_debug reads dbt->database->target_database *)
            _ ← databases s !! table_database d0;
            s3 ← enqueue_table_if_ready_locked p s2;
            Some (Dispatched (set_rj (Some job) s3))
        end
  end.

(** The fallback scan of [conf->loading_table_list].  [giveup] is the local
    of that name; the result carries the locals [giveup] and [job]. *)
Fixpoint scan_table_list (l : list ptr) (giveup : bool) (s : state)
  : option (bool * option restore_job * state) :=
  match l with
  | [] => Some (giveup, None, s)
  | p :: l' =>
      d ← tables s !! p;
      db ← databases s !! table_database d;
      if status_eq (database_schema_state db) NOT_FOUND then
        scan_table_list l' giveup s
      else
        let current_state := schema_state d in
        if status_ge current_state DATA_DONE ||
           (status_eq current_state CREATED && (is_view d || is_sequence d))
        then scan_table_list l' giveup s
        else if negb (status_eq current_state CREATED)
        then scan_table_list l' false s
        else if 0 <? job_count d then
          if no_data d then
            let d1 := set_schema_state ALL_DONE
                        (set_restore_job_list
                           (map g_free_drj (restore_job_list d)) d) in
            scan_table_list l' giveup
              (set_tables_all_done (gint_inc (tables_all_done s))
                 (store_table p d1 s))
          else if max_threads d <=? current_threads d
          then scan_table_list l' false s
          else
            match restore_job_list d with
            | [] => None
            | job :: rest =>
                let s1 := count_dispatch (store_table p (take_job rest d) s) in
                s2 ← enqueue_table_if_ready_locked p s1;
                Some (false, Some job, s2)
            end
        else
          if scan_data_done (all_jobs_are_enqueued s) d then
            scan_table_list l' giveup
              (enqueue_index_for_dbt_if_possible p
                 (store_table p (set_schema_state DATA_DONE d) s))
          else scan_table_list l' false s
  end.

(** The function returns [giveup]; [*rj] is the [rj] cell of the state. *)
Definition give_me_next_data_job_conf (s : state) : option (bool * state) :=
  let s0 := count_iteration s in
  q ← ready_table_queue s0;
  o ← ready_queue_loop q s0;
  match o with
  | Dispatched s1 => Some (false, s1)
  | QueueEmpty s1 =>
      '(giveup, job, s2) ← scan_table_list (loading_table_list s1) true s1;
      Some (giveup, set_rj job s2)
  end.

(** ** The control-job thread *)

(** [if (threads_waiting < _num_threads) threads_waiting++]. *)
Definition park (num_threads : N) (s : state) : state :=
  if threads_waiting s <? num_threads
  then set_threads_waiting (guint_inc (threads_waiting s)) s
  else s.

(** One turn of [while (cont)] after the event [ft] has been popped; the
    result carries [cont].  The turn starts by locking
    [threads_waiting_mutex], which must exist. *)
Definition control_step (num_threads : N) (ft : data_control_type)
  (s : state) : option (bool * state) :=
  if negb (threads_waiting_mutex s) then None else
  match ft with
  | WAKE_DATA_THREAD => Some (true, wake_threads_waiting s)
  | REQUEST_DATA_JOB =>
      '(giveup, s1) ← give_me_next_data_job_conf s;
      match rj s1 with
      | Some job => Some (true, data_job_push job s1)
      | None =>
          if all_jobs_are_enqueued s1 && giveup
          then Some (false, data_ended (set_control_job_ended true s1))
          else Some (true, park num_threads s1)
      end
  | FILE_TYPE_ENDED =>
      let s1 := refresh_table_list s in
      let s2 := enqueue_indexes_if_possible s1 in
      let s3 := set_all_jobs_are_enqueued true s2 in
      Some (true, data_control_queue_push REQUEST_DATA_JOB s3)
  | SHUTDOWN => Some (false, s)
  | FILE_TYPE_SCHEMA_ENDED => Some (true, wake_threads_waiting s)
  end.

(** How a run of the thread over the events at hand ends. *)
Inductive outcome :=
  | Finished (s : state)   (* the loop was left and the epilogue ran *)
  | Blocked (s : state)    (* [g_async_queue_pop] waits for other threads *)
  | OutOfFuel (s : state).

Fixpoint control_loop (fuel : nat) (num_threads : N) (s : state)
  : option outcome :=
  match fuel with
  | O => Some (OutOfFuel s)
  | S fuel' =>
      q ← data_control_queue s;
      match q with
      | [] => Some (Blocked s)
      | ft :: q' =>
          '(cont, s1) ←
            control_step num_threads ft (set_data_control_queue (Some q') s);
          if cont : bool then control_loop fuel' num_threads s1
          else Some (Finished (start_optimize_keys_all_tables
                                 (wait_loader_threads_to_finish s1)))
      end
  end.

(** [rj] starts as NULL, [_num_threads] is read once. *)
Definition worker_loader_main_thread (fuel : nat) (num_threads : N)
  (s : state) : option outcome :=
  control_loop fuel num_threads (set_rj None s).

(** ** Relations and predicates used to state the properties *)

(** [aje] is the value of [all_jobs_are_enqueued] during the call.
    The changes that do not hand out a job: the queue flag is rewritten, the
    table is finalized to DATA_DONE, or a [no_data] table is closed. *)
Inductive quiet (aje : bool) (d : db_table) : db_table -> Prop :=
  | quiet_flag (b : bool) :
      quiet aje d (set_in_ready_queue b d)
  | quiet_data_done (b : bool) :
      schema_state d = CREATED ->
      job_count d = 0 ->
      current_threads d = 0 ->
      remaining_jobs d = 0%Z ->
      aje = true ->
      quiet aje d (set_schema_state DATA_DONE (set_in_ready_queue b d))
  | quiet_all_done (b : bool) :
      schema_state d = CREATED ->
      0 < job_count d ->
      no_data d = true ->
      quiet aje d (set_schema_state ALL_DONE
                 (set_restore_job_list (map g_free_drj (restore_job_list d))
                    (set_in_ready_queue b d))).

(** The change that hands out [job]. *)
Inductive dispatch (job : restore_job) (d : db_table) : db_table -> Prop :=
  | dispatch_intro (b : bool) (rest : list restore_job) :
      schema_state d = CREATED ->
      0 < job_count d ->
      current_threads d < max_threads d ->
      no_data d = false ->
      is_view d = false ->
      is_sequence d = false ->
      restore_job_list d = job :: rest ->
      dispatch job d (set_in_ready_queue b (take_job rest d)).

(** The part of the state the call never writes. *)
Definition globals (s : state) :=
  (control_job_ended s, all_jobs_are_enqueued s, threads_waiting s,
   threads_waiting_mutex s, loading_table_list s, databases s).

(** Every table that became DATA_DONE since [t0] was handed to the index
    workers by one of the calls [ext]. *)
Definition index_calls_cover (t0 t : list db_table) (ext : list event)
  : Prop :=
  forall (p : ptr) (d d' : db_table),
    t0 !! p = Some d -> t !! p = Some d' ->
    schema_state d <> DATA_DONE -> schema_state d' = DATA_DONE ->
    Ev_enqueue_index_for_dbt_if_possible p ∈ ext.

(** [s] is reached from [s0] inside one call, no job taken so far. *)
Record reached (s0 s : state) : Prop := mk_reached {
  reached_globals : globals s = globals s0;
  reached_tables :
    Forall2 (quiet (all_jobs_are_enqueued s0)) (tables s0) (tables s);
  reached_calls :
    exists ext, calls s = calls s0 ++ ext /\
                index_calls_cover (tables s0) (tables s) ext
}.

(** [s] is reached from [s0] by one call that took [job] from table [p]. *)
Record dispatched (s0 s : state) (job : restore_job) (p : ptr)
  : Prop := mk_dispatched {
  dispatched_globals : globals s = globals s0;
  dispatched_table :
    exists (d0 d' : db_table) (t1 : list db_table),
      tables s0 !! p = Some d0 /\
      Forall2 (quiet (all_jobs_are_enqueued s0)) (tables s0) t1 /\
      tables s = <[p := d']> t1 /\
      dispatch job d0 d';
  dispatched_calls :
    exists ext, calls s = calls s0 ++ ext /\
                index_calls_cover (tables s0) (tables s) ext
}.

(** A state of the ready-queue loop with [rj] overwritten where the loop
    has not assigned it. *)
Definition outcome_set_rj (x : option restore_job) (o : queue_outcome)
  : queue_outcome :=
  match o with
  | Dispatched s => Dispatched s
  | QueueEmpty s => QueueEmpty (set_rj x s)
  end.

(** The table points to a database and its job counter does not announce
    jobs its list does not hold. *)
Definition table_well_formed (dbs : list database) (d : db_table) : Prop :=
  is_Some (dbs !! table_database d) /\
  (0 < job_count d -> restore_job_list d <> []).

(** The ready queue exists, and it and the loading list hold valid table
    pointers. *)
Definition well_formed (s : state) : Prop :=
  (exists q, ready_table_queue s = Some q /\
             Forall (fun p => (p < length (tables s))%nat) q) /\
  Forall (fun p => (p < length (tables s))%nat) (loading_table_list s) /\
  Forall (table_well_formed (databases s)) (tables s).

(** The second skip test of the fallback scan: the table is past its data
    phase, or it is a created view or sequence. *)
Definition terminal_for_data (d : db_table) : bool :=
  status_ge (schema_state d) DATA_DONE ||
  status_eq (schema_state d) CREATED && (is_view d || is_sequence d).

(** The table behind [p] belongs to a database that was not found, or it is
    terminal for data. *)
Definition skipped_or_terminal (s : state) (p : ptr) : Prop :=
  exists (d : db_table) (db : database),
    tables s !! p = Some d /\
    databases s !! table_database d = Some db /\
    (database_schema_state db = NOT_FOUND \/ terminal_for_data d = true).

(** No table that is ALL_DONE, and no table whose rows the caller opted out
    of, has a job in flight. *)
Definition done_tables_are_idle (s : state) : Prop :=
  forall (p : ptr) (d : db_table),
    tables s !! p = Some d ->
    schema_state d = ALL_DONE \/ no_data d = true ->
    current_threads d = 0.

(** The guard flag and the ready queue tell the same story: the queue exists,
    holds no table twice, and holds exactly the tables whose
    [in_ready_queue] is set. *)
Definition queue_flags_agree (s : state) : Prop :=
  exists q : list ptr,
    ready_table_queue s = Some q /\ NoDup q /\
    forall p : ptr,
      p ∈ q <-> (in_ready_queue <$> tables s !! p) = Some true.

(** The table points to a database, and [job_count] does not exceed the
    number of jobs in the list. *)
Definition table_consistent (dbs : list database) (d : db_table) : Prop :=
  is_Some (dbs !! table_database d) /\
  job_count d <= N.of_nat (length (restore_job_list d)).

(** What the dispatcher needs of the heap to run without a wild access. *)
Definition consistent (s : state) : Prop :=
  queue_flags_agree s /\
  Forall (fun p => (p < length (tables s))%nat) (loading_table_list s) /\
  Forall (table_consistent (databases s)) (tables s).

(** The state the control thread can be started in:
    [initialize_worker_loader_main] has created the control queue and the
    mutex. *)
Definition thread_ready (s : state) : Prop :=
  consistent s /\ threads_waiting_mutex s = true /\
  is_Some (data_control_queue s).

(** The state a run of the thread ends in. *)
Definition final_state (o : outcome) : state :=
  match o with
  | Finished s => s
  | Blocked s => s
  | OutOfFuel s => s
  end.

(** What a call may post on the control queue: nothing, or one
    WAKE_DATA_THREAD while a loader waits. *)
Definition posts_at_most_wake (s s' : state) : Prop :=
  data_control_queue s' = data_control_queue s \/
  (threads_waiting_mutex s = true /\ 0 < threads_waiting s /\
   exists q, data_control_queue s = Some q /\
             data_control_queue s' = Some (q ++ [WAKE_DATA_THREAD])).

(** [k] calls in a row, each on the state the previous one left. *)
Fixpoint repeat_calls (k : nat) (s : state) : option state :=
  match k with
  | O => Some s
  | S k' =>
      r ← give_me_next_data_job_conf s;
      repeat_calls k' r.2
  end.

(** The table behind [p] keeps the dispatcher from giving up: its database
    was found, it is not terminal for data, and it waits for its schema,
    for a free thread slot, or for jobs still to come or to be
    acknowledged. *)
Definition waiting (s : state) (p : ptr) : Prop :=
  exists (d : db_table) (db : database),
    tables s !! p = Some d /\
    databases s !! table_database d = Some db /\
    database_schema_state db <> NOT_FOUND /\
    terminal_for_data d = false /\
    (schema_state d <> CREATED \/
     (0 < job_count d /\ no_data d = false /\
      max_threads d <= current_threads d) \/
     (job_count d = 0 /\
      scan_data_done (all_jobs_are_enqueued s) d = false)).

(** ** Concrete states used by the examples *)

Definition job (n : N) : restore_job := mk_restore_job n true.

(** A base table whose schema is created, with two pending jobs and room for
    four threads. *)
Definition table_with_jobs : db_table :=
  mk_db_table 0%nat CREATED 2 0 4 false false false false [job 1; job 2] 2.

(** The same table when the caller opted out of its rows. *)
Definition table_no_data : db_table :=
  mk_db_table 0%nat CREATED 2 0 4 false true false false [job 1; job 2] 2.

(** A table whose work is over. *)
Definition table_drained : db_table :=
  mk_db_table 0%nat CREATED 0 0 4 false false false false [] 0.

(** A table of a database that could not be created. *)
Definition table_orphan : db_table :=
  mk_db_table 1%nat NOT_CREATED 1 0 4 false false false false [job 7] 1.

(** The state right after [initialize_worker_loader_main], given a heap. *)
Definition initial_state (ts : list db_table) (loading : list ptr) : state :=
  mk_state false false (Some []) 0 true (mk_statistics 0 0 0 0)
    (Some []) loading 0 ts [mk_database CREATED; mk_database NOT_FOUND]
    None [].

(** The state of a [--no-data] run: no queue and no mutex were created. *)
Definition no_data_mode_state (ts : list db_table) : state :=
  mk_state false false None 0 false (mk_statistics 0 0 0 0)
    None [] 0 ts [mk_database CREATED; mk_database NOT_FOUND] None [].

(** ** The embedding on small runs *)

(** A queued table gives its first job and goes back to the tail of the
    ready queue, since it still has a job and room for a thread. *)
Example ready_queue_dispatch :
  let s := set_ready_table_queue (Some [0%nat])
             (initial_state [set_in_ready_queue true table_with_jobs]
                [0%nat]) in
  (fun r => (r.1, rj r.2, ready_table_queue r.2, tables r.2))
    <$> give_me_next_data_job_conf s
  = Some (false, Some (job 1), Some [0%nat],
          [mk_db_table 0 CREATED 1 1 4 true false false false [job 2] 2]).
Proof. reflexivity. Qed.

(** With an empty ready queue the scan finds the same job and queues the
    table; a waiting loader is then woken through the control queue. *)
Example scan_dispatch :
  let s := set_threads_waiting 1
             (initial_state [table_with_jobs] [0%nat]) in
  (fun r => (r.1, rj r.2, ready_table_queue r.2, data_control_queue r.2))
    <$> give_me_next_data_job_conf s
  = Some (false, Some (job 1), Some [0%nat], Some [WAKE_DATA_THREAD]).
Proof. reflexivity. Qed.

(** A table at its thread limit is passed over, and [giveup] is cleared. *)
Example scan_at_max_threads :
  let busy := mk_db_table 0 CREATED 2 4 4 false false false false
                [job 1; job 2] 2 in
  (fun r => (r.1, rj r.2)) <$>
    give_me_next_data_job_conf (initial_state [busy] [0%nat])
  = Some (false, None).
Proof. reflexivity. Qed.

(** A dump whose only table has nothing to load: FILE_TYPE_ENDED makes the
    thread ask itself for a job, the scan finalizes the table, and the
    thread ends the data phase and runs its epilogue. *)
Example run_on_drained_table :
  (fun o => match o with
            | Finished s =>
                Some (control_job_ended s, schema_state <$> tables s,
                      calls s)
            | _ => None
            end)
    <$> worker_loader_main_thread 3 4
          (set_data_control_queue (Some [FILE_TYPE_ENDED])
             (initial_state [table_drained] []))
  = Some (Some (true, [DATA_DONE],
                [Ev_refresh_table_list false (Some []);
                 Ev_enqueue_indexes_if_possible false (Some []);
                 Ev_enqueue_index_for_dbt_if_possible 0; Ev_data_ended;
                 Ev_wait_loader_threads_to_finish;
                 Ev_start_optimize_keys_all_tables])).
Proof. reflexivity. Qed.

(** A queued table that has run out of work is finalized on the ready-queue
    path once all jobs are enqueued. *)
Example ready_queue_finalizes :
  let s := set_all_jobs_are_enqueued true
             (set_ready_table_queue (Some [0%nat])
                (initial_state [set_in_ready_queue true table_drained] [])) in
  (fun r => (r.1, rj r.2, tables r.2, calls r.2))
    <$> give_me_next_data_job_conf s
  = Some (true, None, [set_schema_state DATA_DONE table_drained],
          [Ev_enqueue_index_for_dbt_if_possible 0]).
Proof. reflexivity. Qed.

(** A dispatch from the ready queue logs the name of the table's database:
    with a database pointer that leads nowhere the call has no defined
    result, on the ready-queue path as in the scan. *)
Example dispatch_reads_the_database :
  let lost := mk_db_table 7 CREATED 2 0 4 true false false false
                [job 1; job 2] 2 in
  give_me_next_data_job_conf
    (set_ready_table_queue (Some [0%nat]) (initial_state [lost] [])) = None
  /\
  give_me_next_data_job_conf
    (initial_state [set_in_ready_queue false lost] [0%nat]) = None.
Proof. split; reflexivity. Qed.

(** The ready-queue path does not look at the state of the database: a
    queued table of a NOT_FOUND database is served, while the scan passes
    it over. *)
Example not_found_database_queued_or_scanned :
  let t := mk_db_table 1 CREATED 2 0 4 true false false false
             [job 1; job 2] 2 in
  (fun r => (r.1, rj r.2)) <$>
    give_me_next_data_job_conf
      (set_ready_table_queue (Some [0%nat]) (initial_state [t] []))
  = Some (false, Some (job 1))
  /\
  (fun r => (r.1, rj r.2)) <$>
    give_me_next_data_job_conf
      (initial_state [set_in_ready_queue false t] [0%nat])
  = Some (true, None).
Proof. split; reflexivity. Qed.

(** The [no_data] branch does not look at [current_threads]: a table that
    has a job in flight keeps it in flight when it is closed. *)
Example no_data_branch_ignores_current_threads :
  let busy := mk_db_table 0 CREATED 2 1 4 false true false false
                [job 1; job 2] 2 in
  (fun r => (fun d => (schema_state d, current_threads d))
              <$> tables r.2 !! 0%nat)
    <$> give_me_next_data_job_conf (initial_state [busy] [0%nat])
  = Some (Some (ALL_DONE, 1)).
Proof. reflexivity. Qed.

(** With nothing in the control queue the thread blocks. *)
Example run_blocks_on_empty_queue :
  worker_loader_main_thread 3 4 (initial_state [] [])
  = Some (Blocked (initial_state [] [])).
Proof. reflexivity. Qed.

(** ** Elementary facts *)

Lemma status_eq_true (a b : schema_status) : status_eq a b = true <-> a = b.
Proof.
  unfold status_eq. rewrite N.eqb_eq.
  split; [| intros ->; reflexivity].
  destruct a, b; simpl; intros H; try reflexivity; discriminate H.
Qed.

Lemma status_eq_false (a b : schema_status) : status_eq a b = false <-> a <> b.
Proof.
  rewrite <- status_eq_true. destruct (status_eq a b); split; congruence.
Qed.

Lemma guint_inc_le (x : N) : guint_inc x <= x + 1.
Proof. unfold guint_inc. apply N.Div0.mod_le. Qed.

Lemma guint_inc_small (x : N) : x + 1 < 4294967296 -> guint_inc x = x + 1.
Proof. unfold guint_inc. intros H. apply N.mod_small, H. Qed.

Lemma set_in_ready_queue_same (d : db_table) :
  set_in_ready_queue (in_ready_queue d) d = d.
Proof. destruct d; reflexivity. Qed.

Lemma table_is_ready_iff (d : db_table) :
  table_is_ready d = true <->
  schema_state d = CREATED /\ 0 < job_count d /\
  current_threads d < max_threads d /\ in_ready_queue d = false /\
  no_data d = false /\ is_view d = false /\ is_sequence d = false.
Proof.
  unfold table_is_ready.
  rewrite !andb_true_iff, !negb_true_iff, status_eq_true, !N.ltb_lt.
  tauto.
Qed.

(** *** The wake-up loop *)

Lemma wake_loop_spec (k : nat) :
  forall (s : state) (q : list data_control_type),
    data_control_queue s = Some q ->
    threads_waiting s = N.of_nat k ->
    wake_loop k s =
    set_threads_waiting 0
      (set_data_control_queue (Some (q ++ replicate k REQUEST_DATA_JOB)) s).
Proof.
  induction k as [| k IH]; intros s q Hq Htw.
  - destruct s; simpl in *; subst. rewrite app_nil_r. reflexivity.
  - cbn [wake_loop]. rewrite Htw.
    replace (0 <? N.of_nat (S k)) with true by (symmetry; apply N.ltb_lt; lia).
    assert (Hone : wake_one_waiting s =
                   set_threads_waiting (N.of_nat k)
                     (set_data_control_queue
                        (Some (q ++ [REQUEST_DATA_JOB])) s)).
    { unfold wake_one_waiting, data_control_queue_push. rewrite Hq.
      cbn. rewrite Htw. f_equal. lia. }
    rewrite Hone.
    rewrite (IH _ (q ++ [REQUEST_DATA_JOB])) by reflexivity.
    cbn. rewrite <- app_assoc. reflexivity.
Qed.

(** The fuel given to the loop is enough: at exit the loop test is false. *)
Lemma wake_threads_waiting_drains (s : state) :
  threads_waiting_mutex s = true ->
  threads_waiting (wake_threads_waiting s) = 0.
Proof.
  intros Hm. unfold wake_threads_waiting. rewrite Hm.
  remember (N.to_nat (threads_waiting s)) as k eqn:Hk.
  assert (Htw : threads_waiting s <= N.of_nat k) by lia. clear Hk.
  revert s Hm Htw. induction k as [| k IH]; intros s Hm Htw; cbn [wake_loop].
  - lia.
  - destruct (0 <? threads_waiting s) eqn:Hpos.
    + apply IH.
      * unfold wake_one_waiting, data_control_queue_push.
        destruct (data_control_queue s); exact Hm.
      * apply N.ltb_lt in Hpos.
        unfold wake_one_waiting, data_control_queue_push.
        destruct (data_control_queue s); cbn; lia.
    + apply N.ltb_ge in Hpos. lia.
Qed.

(** ** What one call of [give_me_next_data_job_conf] does to a table *)

Section TableChanges.

(** The value of [all_jobs_are_enqueued] during the call. *)
Variable aje : bool.

Lemma quiet_refl (d : db_table) : quiet aje d d.
Proof.
  rewrite <- (set_in_ready_queue_same d) at 2. apply quiet_flag.
Qed.

Lemma quiet_trans (d0 d1 d2 : db_table) :
  quiet aje d0 d1 -> quiet aje d1 d2 -> quiet aje d0 d2.
Proof.
  intros H01 H12.
  inversion H12 as [b2 | b2 Hs Hj Hc Hr Ha | b2 Hs Hj Hn]; subst d2;
    inversion H01 as [b1 | b1 Hs1 Hj1 Hc1 Hr1 Ha1 | b1 Hs1 Hj1 Hn1];
    subst d1; cbn in *; try discriminate.
  - exact (quiet_flag aje d0 b2).
  - exact (quiet_data_done aje d0 b2 Hs1 Hj1 Hc1 Hr1 Ha1).
  - exact (quiet_all_done aje d0 b2 Hs1 Hj1 Hn1).
  - exact (quiet_data_done aje d0 b2 Hs Hj Hc Hr Ha).
  - exact (quiet_all_done aje d0 b2 Hs Hj Hn).
Qed.

Lemma dispatch_after_quiet (job : restore_job) (d0 d : db_table) (b : bool)
  (rest : list restore_job) :
  quiet aje d0 d ->
  schema_state d = CREATED ->
  0 < job_count d ->
  current_threads d < max_threads d ->
  no_data d = false ->
  is_view d = false ->
  is_sequence d = false ->
  restore_job_list d = job :: rest ->
  dispatch job d0 (set_in_ready_queue b (take_job rest d)).
Proof.
  intros Hq Hs Hj Hc Hn Hv Hq'.
  inversion Hq as [b0 | b0 ? ? ? ? ? | b0 ? ? ?]; subst d; cbn in *;
    try discriminate.
  intros Hl. exact (dispatch_intro job d0 b rest Hs Hj Hc Hn Hv Hq' Hl).
Qed.

(** Field by field, for the invariants below. *)

Lemma quiet_threads (d d' : db_table) :
  quiet aje d d' ->
  current_threads d' = current_threads d /\ max_threads d' = max_threads d /\
  job_count d' = job_count d /\
  length (restore_job_list d') = length (restore_job_list d).
Proof.
  intros [b | b ? ? ? ? ? | b ? ? ?]; cbn; rewrite ?length_map; auto.
Qed.

Lemma quiet_data_done_inv (d d' : db_table) :
  quiet aje d d' ->
  schema_state d' = DATA_DONE ->
  schema_state d <> DATA_DONE ->
  aje = true /\ schema_state d = CREATED /\ job_count d = 0 /\
  current_threads d = 0 /\ remaining_jobs d = 0%Z.
Proof.
  intros [b | b ? ? ? ? ? | b ? ? ?]; cbn; intros Hd Hn;
    try contradiction; try discriminate; auto.
Qed.

Lemma quiet_all_done_inv (d d' : db_table) :
  quiet aje d d' ->
  schema_state d' = ALL_DONE ->
  schema_state d <> ALL_DONE ->
  schema_state d = CREATED /\ 0 < job_count d /\ no_data d = true /\
  restore_job_list d' = map g_free_drj (restore_job_list d).
Proof.
  intros [b | b ? ? ? ? ? | b ? ? ?]; cbn; intros Hd Hn;
    try contradiction; try discriminate; auto.
Qed.

Lemma dispatch_state (job : restore_job) (d d' : db_table) :
  dispatch job d d' -> schema_state d' = CREATED.
Proof. intros [b rest Hs ? ? ? ? ? ?]. exact Hs. Qed.

Lemma dispatch_threads (job : restore_job) (d d' : db_table) :
  dispatch job d d' ->
  current_threads d < max_threads d /\
  current_threads d' = guint_inc (current_threads d) /\
  max_threads d' = max_threads d.
Proof. intros [b rest ? ? Hc ? ? ? ?]. cbn. auto. Qed.

End TableChanges.

(** ** What one call does to the state *)

Lemma index_calls_cover_update (t0 t : list db_table) (ext ext' : list event)
  (p : ptr) (d d' : db_table) :
  index_calls_cover t0 t ext ->
  t !! p = Some d ->
  (schema_state d' = DATA_DONE ->
   schema_state d = DATA_DONE \/
   Ev_enqueue_index_for_dbt_if_possible p ∈ ext') ->
  index_calls_cover t0 (<[p := d']> t) (ext ++ ext').
Proof.
  intros Hcov Hp Hnew q e e' Hq0 Hq Hne Hdone.
  apply elem_of_app.
  destruct (decide (p = q)) as [-> | Hpq].
  - rewrite list_lookup_insert_eq in Hq by (eapply lookup_lt_Some, Hp).
    injection Hq as <-.
    destruct (Hnew Hdone) as [Hold | Hin]; [left | right; exact Hin].
    exact (Hcov q e d Hq0 Hp Hne Hold).
  - rewrite list_lookup_insert_ne in Hq by exact Hpq.
    left. exact (Hcov q e e' Hq0 Hq Hne Hdone).
Qed.

Lemma Forall2_update {A B : Type} (R : A -> B -> Prop) (l : list A)
  (k : list B) (i : nat) (x : A) (y : B) :
  Forall2 R l k -> l !! i = Some x -> R x y -> Forall2 R l (<[i := y]> k).
Proof.
  intros HF Hx HR. rewrite <- (list_insert_id l i x Hx).
  apply Forall2_insert; assumption.
Qed.

Lemma reached_refl (s : state) : reached s s.
Proof.
  split; [reflexivity | |].
  - apply Forall_Forall2_diag, Forall_forall. intros d _. apply quiet_refl.
  - exists []. split; [symmetry; apply app_nil_r |].
    intros p d d' H0 H1 Hne Hd. congruence.
Qed.

(** A step that leaves the tables alone. *)
Lemma reached_frame (s0 s s' : state) :
  reached s0 s ->
  globals s' = globals s -> tables s' = tables s -> calls s' = calls s ->
  reached s0 s'.
Proof.
  intros [Hg Ht Hc] Hg' Ht' Hc'. split.
  - congruence.
  - rewrite Ht'. exact Ht.
  - rewrite Ht', Hc'. exact Hc.
Qed.

(** A step that rewrites table [p] without taking a job. *)
Lemma reached_update (s0 s s' : state) (p : ptr) (d d' : db_table)
  (ext' : list event) :
  reached s0 s ->
  tables s !! p = Some d ->
  quiet (all_jobs_are_enqueued s0) d d' ->
  (schema_state d' = DATA_DONE ->
   schema_state d = DATA_DONE \/
   Ev_enqueue_index_for_dbt_if_possible p ∈ ext') ->
  globals s' = globals s ->
  tables s' = <[p := d']> (tables s) ->
  calls s' = calls s ++ ext' ->
  reached s0 s'.
Proof.
  intros [Hg Ht [ext [Hc Hcov]]] Hp Hq Hnew Hg' Ht' Hc'.
  destruct (Forall2_lookup_r _ _ _ _ _ Ht Hp) as (d0 & Hp0 & Hq0).
  split.
  - congruence.
  - rewrite Ht'. eapply Forall2_update; [exact Ht | exact Hp0 |].
    eapply quiet_trans; eassumption.
  - exists (ext ++ ext'). split.
    + rewrite Hc', Hc, app_assoc. reflexivity.
    + rewrite Ht'. eapply index_calls_cover_update; eassumption.
Qed.

(** The step that takes a job from table [p]. *)
Lemma reached_dispatch (s0 s s' : state) (p : ptr) (d : db_table)
  (b : bool) (job : restore_job) (rest : list restore_job) :
  reached s0 s ->
  tables s !! p = Some d ->
  schema_state d = CREATED ->
  0 < job_count d ->
  current_threads d < max_threads d ->
  no_data d = false ->
  is_view d = false ->
  is_sequence d = false ->
  restore_job_list d = job :: rest ->
  globals s' = globals s ->
  tables s' = <[p := set_in_ready_queue b (take_job rest d)]> (tables s) ->
  calls s' = calls s ->
  dispatched s0 s' job p.
Proof.
  intros [Hg Ht [ext [Hc Hcov]]] Hp Hs Hj Hth Hn Hv Hsq Hl Hg' Ht' Hc'.
  destruct (Forall2_lookup_r _ _ _ _ _ Ht Hp) as (d0 & Hp0 & Hq0).
  split.
  - congruence.
  - exists d0, (set_in_ready_queue b (take_job rest d)), (tables s).
    repeat split; try assumption.
    eapply dispatch_after_quiet; eassumption.
  - exists ext. split; [congruence |].
    rewrite Ht', <- (app_nil_r ext).
    eapply index_calls_cover_update; [exact Hcov | exact Hp |].
    cbn. intros Hd. rewrite Hs in Hd. discriminate Hd.
Qed.

Lemma globals_all_jobs_are_enqueued (s s' : state) :
  globals s' = globals s -> all_jobs_are_enqueued s' = all_jobs_are_enqueued s.
Proof. unfold globals. intros H. injection H. auto. Qed.

(** *** [enqueue_table_if_ready_locked] only rewrites the queue flag *)

Lemma enqueue_table_if_ready_locked_effect (p : ptr) (s s' : state)
  (d : db_table) :
  tables s !! p = Some d ->
  enqueue_table_if_ready_locked p s = Some s' ->
  globals s' = globals s /\ calls s' = calls s /\ rj s' = rj s /\
  exists b, tables s' = <[p := set_in_ready_queue b d]> (tables s).
Proof.
  intros Hp. unfold enqueue_table_if_ready_locked.
  assert (Hsame : exists b,
             tables s = <[p := set_in_ready_queue b d]> (tables s)).
  { exists (in_ready_queue d). rewrite set_in_ready_queue_same.
    symmetry. apply list_insert_id, Hp. }
  destruct (ready_table_queue s) as [q |].
  - rewrite Hp. cbn. destruct (table_is_ready d).
    + intros [= <-]. unfold wake_data_threads, data_control_queue_push.
      cbn.
      destruct (threads_waiting_mutex s), (0 <? threads_waiting s),
        (data_control_queue s);
        cbn; repeat split; exists true; reflexivity.
    + intros [= <-]. auto.
  - intros [= <-]. auto.
Qed.

Lemma no_longer_ready_false (d : db_table) :
  no_longer_ready d = false <->
  schema_state d = CREATED /\ 0 < job_count d /\
  current_threads d < max_threads d /\ no_data d = false /\
  is_view d = false /\ is_sequence d = false.
Proof.
  unfold no_longer_ready.
  rewrite !orb_false_iff, negb_false_iff, status_eq_true, N.eqb_neq,
    N.leb_gt.
  split; intros H; repeat split; try tauto; lia.
Qed.

Lemma queue_data_done_true (aje : bool) (d : db_table) :
  queue_data_done aje d = true <->
  schema_state d = CREATED /\ job_count d = 0 /\ current_threads d = 0 /\
  aje = true /\ remaining_jobs d = 0%Z.
Proof.
  unfold queue_data_done.
  rewrite !andb_true_iff, status_eq_true, !N.eqb_eq, Z.eqb_eq. tauto.
Qed.

Lemma scan_data_done_true (aje : bool) (d : db_table) :
  scan_data_done aje d = true <->
  aje = true /\ current_threads d = 0 /\ remaining_jobs d = 0%Z.
Proof.
  unfold scan_data_done.
  rewrite !andb_true_iff, N.eqb_eq, Z.eqb_eq. tauto.
Qed.

Lemma ready_queue_loop_post (s0 : state) (q : list ptr) :
  forall (s : state) (o : queue_outcome),
    reached s0 s ->
    ready_queue_loop q s = Some o ->
    match o with
    | QueueEmpty s' => reached s0 s' /\ rj s' = rj s
    | Dispatched s' =>
        exists job p, rj s' = Some job /\ dispatched s0 s' job p
    end.
Proof.
  induction q as [| p q IH]; intros s o Hr Hrun.
  - injection Hrun as <-. auto.
  - cbn [ready_queue_loop] in Hrun.
    change (tables (set_ready_table_queue (Some q) s)) with (tables s) in Hrun.
    destruct (tables s !! p) as [d0 |] eqn:Hp; [| discriminate Hrun].
    cbn [mbind option_bind] in Hrun.
    pose proof (globals_all_jobs_are_enqueued _ _ (reached_globals _ _ Hr))
      as Haje.
    destruct (no_longer_ready (set_in_ready_queue false d0)) eqn:Hready.
    + change (all_jobs_are_enqueued
                (count_miss (set_ready_table_queue (Some q) s)))
        with (all_jobs_are_enqueued s) in Hrun.
      rewrite Haje in Hrun.
      destruct (queue_data_done (all_jobs_are_enqueued s0)
                  (set_in_ready_queue false d0)) eqn:Hdone.
      * apply queue_data_done_true in Hdone.
        destruct Hdone as (Hs & Hj & Hc & Ha & Hrem).
        apply IH in Hrun; [exact Hrun |].
        eapply (reached_update s0 s _ p d0 _
                  [Ev_enqueue_index_for_dbt_if_possible p]);
          [exact Hr | exact Hp | | | reflexivity | reflexivity | reflexivity].
        -- apply quiet_data_done; assumption.
        -- intros _. right. apply list_elem_of_singleton. reflexivity.
      * apply IH in Hrun; [exact Hrun |].
        eapply (reached_update s0 s _ p d0 _ []);
          [exact Hr | exact Hp | | | reflexivity | reflexivity |].
        -- apply quiet_flag.
        -- cbn. auto.
        -- cbn. symmetry. apply app_nil_r.
    + apply no_longer_ready_false in Hready.
      destruct Hready as (Hs & Hj & Hc & Hn & Hv & Hsq).
      cbn [restore_job_list set_in_ready_queue] in Hrun.
      destruct (restore_job_list d0) as [| job rest] eqn:Hl;
        [discriminate Hrun |].
      apply bind_Some in Hrun. destruct Hrun as (db & _ & Hrun).
      apply bind_Some in Hrun. destruct Hrun as (s3 & Henq & [= <-]).
      eapply enqueue_table_if_ready_locked_effect in Henq.
      2:{ cbn. apply list_lookup_insert_eq. eapply lookup_lt_Some, Hp. }
      destruct Henq as (Hg3 & Hc3 & _ & b & Ht3).
      exists job, p. split; [reflexivity |].
      apply (reached_dispatch s0 s (set_rj (Some job) s3) p d0 b job rest
               Hr Hp Hs Hj Hc Hn Hv Hsq Hl).
      * exact Hg3.
      * cbn. rewrite Ht3. cbn. rewrite list_insert_insert_eq. reflexivity.
      * exact Hc3.
Qed.

Lemma scan_table_list_post (s0 : state) (l : list ptr) :
  forall (g : bool) (s : state) (g' : bool) (oj : option restore_job)
         (s' : state),
    reached s0 s ->
    scan_table_list l g s = Some (g', oj, s') ->
    rj s' = rj s /\
    match oj with
    | None => reached s0 s'
    | Some job => g' = false /\ exists p, dispatched s0 s' job p
    end.
Proof.
  induction l as [| p l IH]; intros g s g' oj s' Hr Hrun.
  - injection Hrun as <- <- <-. auto.
  - cbn [scan_table_list] in Hrun.
    destruct (tables s !! p) as [d |] eqn:Hp; [| discriminate Hrun].
    cbn [mbind option_bind] in Hrun.
    destruct (databases s !! table_database d) as [db |];
      [| discriminate Hrun].
    cbn [mbind option_bind] in Hrun.
    pose proof (globals_all_jobs_are_enqueued _ _ (reached_globals _ _ Hr))
      as Haje.
    destruct (status_eq (database_schema_state db) NOT_FOUND);
      [exact (IH _ _ _ _ _ Hr Hrun) |].
    destruct (status_ge (schema_state d) DATA_DONE
              || status_eq (schema_state d) CREATED
                 && (is_view d || is_sequence d)) eqn:Hterm;
      [exact (IH _ _ _ _ _ Hr Hrun) |].
    destruct (status_eq (schema_state d) CREATED) eqn:Hs;
      [| exact (IH _ _ _ _ _ Hr Hrun)].
    cbn [negb] in Hrun.
    apply status_eq_true in Hs.
    apply orb_false_iff in Hterm. destruct Hterm as [_ Hkind].
    cbn [andb] in Hkind. apply orb_false_iff in Hkind.
    destruct Hkind as [Hv Hsq].
    destruct (0 <? job_count d) eqn:Hj.
    + apply N.ltb_lt in Hj.
      destruct (no_data d) eqn:Hn.
      * apply IH in Hrun; [exact Hrun |].
        eapply (reached_update s0 s _ p d _ []);
          [exact Hr | exact Hp | | | reflexivity | reflexivity |].
        -- exact (quiet_all_done _ d (in_ready_queue d) Hs Hj Hn).
        -- cbn. discriminate.
        -- cbn. symmetry. apply app_nil_r.
      * destruct (max_threads d <=? current_threads d) eqn:Hc;
          [exact (IH _ _ _ _ _ Hr Hrun) |].
        apply N.leb_gt in Hc.
        destruct (restore_job_list d) as [| job rest] eqn:Hl;
          [discriminate Hrun |].
        apply bind_Some in Hrun.
        destruct Hrun as (s2 & Henq & [= <- <- <-]).
        eapply enqueue_table_if_ready_locked_effect in Henq.
        2:{ cbn. apply list_lookup_insert_eq. eapply lookup_lt_Some, Hp. }
        destruct Henq as (Hg2 & Hc2 & Hrj2 & b & Ht2).
        split; [exact Hrj2 |]. split; [reflexivity |]. exists p.
        apply (reached_dispatch s0 s s2 p d b job rest
                 Hr Hp Hs Hj Hc Hn Hv Hsq Hl).
        -- exact Hg2.
        -- rewrite Ht2. cbn. rewrite list_insert_insert_eq. reflexivity.
        -- exact Hc2.
    + rewrite Haje in Hrun.
      destruct (scan_data_done (all_jobs_are_enqueued s0) d) eqn:Hdone;
        [| exact (IH _ _ _ _ _ Hr Hrun)].
      apply scan_data_done_true in Hdone. destruct Hdone as (Ha & Hc & Hrem).
      apply N.ltb_ge in Hj.
      apply IH in Hrun; [exact Hrun |].
      eapply (reached_update s0 s _ p d _
                [Ev_enqueue_index_for_dbt_if_possible p]);
        [exact Hr | exact Hp | | | reflexivity | reflexivity | reflexivity].
      * apply (quiet_data_done _ d (in_ready_queue d)); try assumption. lia.
      * intros _. right. apply list_elem_of_singleton. reflexivity.
Qed.

Lemma dispatched_frame (s0 s s' : state) (job : restore_job) (p : ptr) :
  dispatched s0 s job p ->
  globals s' = globals s -> tables s' = tables s -> calls s' = calls s ->
  dispatched s0 s' job p.
Proof.
  intros [Hg Ht Hc] Hg' Ht' Hc'. split.
  - congruence.
  - rewrite Ht'. exact Ht.
  - rewrite Ht', Hc'. exact Hc.
Qed.

(** The whole call: either no job was found and [*rj] is NULL, or [*rj] is
    the job just taken from a table and [giveup] is false. *)
Lemma give_me_next_data_job_conf_post (s s' : state) (g : bool) :
  give_me_next_data_job_conf s = Some (g, s') ->
  match rj s' with
  | None => reached s s'
  | Some job => g = false /\ exists p, dispatched s s' job p
  end.
Proof.
  unfold give_me_next_data_job_conf. intros Hrun.
  apply bind_Some in Hrun. destruct Hrun as (q & _ & Hrun).
  apply bind_Some in Hrun. destruct Hrun as (o & Hloop & Hrun).
  assert (Hr0 : reached s (count_iteration s)).
  { eapply reached_frame; [apply reached_refl | reflexivity ..]. }
  pose proof (ready_queue_loop_post s q _ _ Hr0 Hloop) as Hq.
  destruct o as [s1 | s1].
  - injection Hrun as <- <-.
    destruct Hq as (job & p & -> & Hd). split; [reflexivity |].
    exists p. exact Hd.
  - destruct Hq as [Hr1 _].
    apply bind_Some in Hrun. destruct Hrun as ([[g1 oj] s2] & Hscan & Hrun).
    injection Hrun as <- <-.
    destruct (scan_table_list_post s _ _ _ _ _ _ Hr1 Hscan) as [_ Hpost].
    destruct oj as [job |]; cbn.
    + destruct Hpost as [-> [p Hd]]. split; [reflexivity |]. exists p.
      eapply dispatched_frame; [exact Hd | reflexivity ..].
    + eapply reached_frame; [exact Hpost | reflexivity ..].
Qed.

(** The same, table by table. *)
Lemma table_after_call (s s' : state) (g : bool) (p : ptr) (d d' : db_table) :
  give_me_next_data_job_conf s = Some (g, s') ->
  tables s !! p = Some d ->
  tables s' !! p = Some d' ->
  quiet (all_jobs_are_enqueued s) d d' \/
  exists job, rj s' = Some job /\ dispatch job d d'.
Proof.
  intros Hrun Hp Hp'. apply give_me_next_data_job_conf_post in Hrun.
  destruct (rj s') as [job |].
  - destruct Hrun as [_ [p0 [_ (d0 & d0' & t1 & Hp0 & Ht1 & Ht' & Hd) _]]].
    rewrite Ht' in Hp'.
    destruct (decide (p0 = p)) as [-> | Hne].
    + rewrite list_lookup_insert_eq in Hp'.
      * right. exists job. split; [reflexivity |]. congruence.
      * rewrite <- (Forall2_length _ _ _ Ht1). eapply lookup_lt_Some, Hp.
    + rewrite list_lookup_insert_ne in Hp' by exact Hne.
      left. exact (Forall2_lookup_lr _ _ _ _ _ _ Ht1 Hp Hp').
  - left.
    exact (Forall2_lookup_lr _ _ _ _ _ _ (reached_tables _ _ Hrun) Hp Hp').
Qed.

Lemma globals_after_call (s s' : state) (g : bool) :
  give_me_next_data_job_conf s = Some (g, s') -> globals s' = globals s.
Proof.
  intros Hrun. apply give_me_next_data_job_conf_post in Hrun.
  destruct (rj s').
  - destruct Hrun as [_ [p [Hg _ _]]]. exact Hg.
  - destruct Hrun as [Hg _ _]. exact Hg.
Qed.

Lemma calls_after_call (s s' : state) (g : bool) :
  give_me_next_data_job_conf s = Some (g, s') ->
  exists ext, calls s' = calls s ++ ext /\
              index_calls_cover (tables s) (tables s') ext.
Proof.
  intros Hrun. apply give_me_next_data_job_conf_post in Hrun.
  destruct (rj s').
  - destruct Hrun as [_ [p [_ _ Hc]]]. exact Hc.
  - destruct Hrun as [_ _ Hc]. exact Hc.
Qed.

Lemma tables_length_after_call (s s' : state) (g : bool) :
  give_me_next_data_job_conf s = Some (g, s') ->
  length (tables s') = length (tables s).
Proof.
  intros Hrun. apply give_me_next_data_job_conf_post in Hrun.
  destruct (rj s').
  - destruct Hrun as [_ [p [_ (d0 & d0' & t1 & _ & Ht1 & -> & _) _]]].
    rewrite length_insert. symmetry. exact (Forall2_length _ _ _ Ht1).
  - symmetry. exact (Forall2_length _ _ _ (reached_tables _ _ Hrun)).
Qed.

(** ** The call never reads [*rj] *)

Lemma enqueue_table_if_ready_locked_rj (p : ptr) (s : state)
  (x : option restore_job) :
  enqueue_table_if_ready_locked p (set_rj x s) =
  set_rj x <$> enqueue_table_if_ready_locked p s.
Proof.
  unfold enqueue_table_if_ready_locked. cbn.
  destruct (ready_table_queue s) as [q |]; [| reflexivity].
  destruct (tables s !! p) as [d |]; [| reflexivity]. cbn.
  destruct (table_is_ready d); [| reflexivity].
  unfold wake_data_threads, data_control_queue_push. cbn.
  destruct (threads_waiting_mutex s), (0 <? threads_waiting s),
    (data_control_queue s); reflexivity.
Qed.

Lemma ready_queue_loop_rj (q : list ptr) :
  forall (s : state) (x : option restore_job),
    ready_queue_loop q (set_rj x s) =
    outcome_set_rj x <$> ready_queue_loop q s.
Proof.
  induction q as [| p q IH]; intros s x; [reflexivity |].
  cbn [ready_queue_loop].
  change (tables (set_ready_table_queue (Some q) (set_rj x s)))
    with (tables s).
  change (tables (set_ready_table_queue (Some q) s)) with (tables s).
  destruct (tables s !! p) as [d0 |]; [| reflexivity].
  cbn [mbind option_bind].
  destruct (no_longer_ready (set_in_ready_queue false d0)).
  - change (all_jobs_are_enqueued
              (count_miss (set_ready_table_queue (Some q) (set_rj x s))))
      with (all_jobs_are_enqueued
              (count_miss (set_ready_table_queue (Some q) s))).
    destruct (queue_data_done _ _);
      match goal with
      | |- _ = _ <$> ready_queue_loop _ ?b => exact (IH b x)
      end.
  - destruct (restore_job_list (set_in_ready_queue false d0))
      as [| job rest]; [reflexivity |].
    change (databases (set_rj x s)) with (databases s).
    destruct (databases s !! table_database d0); [| reflexivity].
    cbn [mbind option_bind].
    match goal with
    | |- enqueue_table_if_ready_locked p ?a ≫= _ = _ =>
        match goal with
        | |- _ = _ <$> (enqueue_table_if_ready_locked p ?b ≫= _) =>
            change a with (set_rj x b)
        end
    end.
    rewrite enqueue_table_if_ready_locked_rj.
    destruct (enqueue_table_if_ready_locked p _); reflexivity.
Qed.

Ltac by_scan_IH IH x :=
  match goal with
  | |- _ = _ <$> scan_table_list _ ?g ?b => exact (IH g b x)
  end.

Lemma scan_table_list_rj (l : list ptr) :
  forall (g : bool) (s : state) (x : option restore_job),
    scan_table_list l g (set_rj x s) =
    (fun r => (r.1, set_rj x r.2)) <$> scan_table_list l g s.
Proof.
  induction l as [| p l IH]; intros g s x; [reflexivity |].
  cbn [scan_table_list].
  change (tables (set_rj x s)) with (tables s).
  destruct (tables s !! p) as [d |]; [| reflexivity].
  cbn [mbind option_bind].
  change (databases (set_rj x s)) with (databases s).
  destruct (databases s !! table_database d) as [db |]; [| reflexivity].
  cbn [mbind option_bind].
  destruct (status_eq (database_schema_state db) NOT_FOUND); [apply IH |].
  destruct (status_ge (schema_state d) DATA_DONE
            || status_eq (schema_state d) CREATED
               && (is_view d || is_sequence d)); [apply IH |].
  destruct (negb (status_eq (schema_state d) CREATED)); [apply IH |].
  destruct (0 <? job_count d).
  - destruct (no_data d); [by_scan_IH IH x |].
    destruct (max_threads d <=? current_threads d); [apply IH |].
    destruct (restore_job_list d) as [| job rest]; [reflexivity |].
    match goal with
    | |- enqueue_table_if_ready_locked p ?a ≫= _ = _ =>
        match goal with
        | |- _ = _ <$> (enqueue_table_if_ready_locked p ?b ≫= _) =>
            change a with (set_rj x b)
        end
    end.
    rewrite enqueue_table_if_ready_locked_rj.
    destruct (enqueue_table_if_ready_locked p _); reflexivity.
  - change (all_jobs_are_enqueued (set_rj x s))
      with (all_jobs_are_enqueued s).
    destruct (scan_data_done (all_jobs_are_enqueued s) d);
      [by_scan_IH IH x | apply IH].
Qed.

Lemma give_me_next_data_job_conf_rj (s : state) (x : option restore_job) :
  give_me_next_data_job_conf (set_rj x s) = give_me_next_data_job_conf s.
Proof.
  unfold give_me_next_data_job_conf.
  change (count_iteration (set_rj x s)) with (set_rj x (count_iteration s)).
  change (ready_table_queue (set_rj x (count_iteration s)))
    with (ready_table_queue (count_iteration s)).
  destruct (ready_table_queue (count_iteration s)) as [q |]; [| reflexivity].
  cbn [mbind option_bind].
  rewrite ready_queue_loop_rj.
  destruct (ready_queue_loop q (count_iteration s)) as [[s1 | s1] |];
    try reflexivity.
  cbn [fmap option_fmap option_map outcome_set_rj mbind option_bind].
  change (loading_table_list (set_rj x s1)) with (loading_table_list s1).
  rewrite scan_table_list_rj.
  destruct (scan_table_list (loading_table_list s1) true s1)
    as [[[g oj] s2] |]; reflexivity.
Qed.

(** ** The call returns on well-formed states *)

Lemma quiet_well_formed (aje : bool) (dbs : list database)
  (d d' : db_table) :
  quiet aje d d' -> table_well_formed dbs d -> table_well_formed dbs d'.
Proof.
  intros [b | b ? ? ? ? ? | b ? ? ?] [Hdb Hl]; split; cbn; auto.
  intros Hj Hmap. apply Hl; [exact Hj |].
  destruct (restore_job_list d); [reflexivity | discriminate Hmap].
Qed.

Lemma enqueue_table_if_ready_locked_total (p : ptr) (s : state) :
  is_Some (tables s !! p) -> is_Some (enqueue_table_if_ready_locked p s).
Proof.
  intros [d Hp]. unfold enqueue_table_if_ready_locked.
  destruct (ready_table_queue s); [| eexists; reflexivity].
  rewrite Hp. cbn. destruct (table_is_ready d); eexists; reflexivity.
Qed.

Lemma ready_queue_loop_total (q : list ptr) :
  forall s : state,
    Forall (fun p => (p < length (tables s))%nat) q ->
    Forall (table_well_formed (databases s)) (tables s) ->
    is_Some (ready_queue_loop q s).
Proof.
  induction q as [| p q IH]; intros s Hq Hw; [eexists; reflexivity |].
  apply Forall_cons in Hq. destruct Hq as [Hp Hq].
  destruct (proj2 (lookup_lt_is_Some (tables s) p) Hp) as [d0 Hd0].
  pose proof (proj1 (Forall_lookup _ _) Hw p d0 Hd0) as Hwd.
  cbn [ready_queue_loop].
  change (tables (set_ready_table_queue (Some q) s)) with (tables s).
  rewrite Hd0. cbn [mbind option_bind].
  destruct (no_longer_ready (set_in_ready_queue false d0)) eqn:Hready.
  - destruct (queue_data_done _ _); apply IH; cbn;
      rewrite ?length_insert; try exact Hq;
      apply Forall_insert; try exact Hw; exact Hwd.
  - apply no_longer_ready_false in Hready.
    destruct Hready as (_ & Hj & _).
    cbn [restore_job_list set_in_ready_queue].
    destruct (restore_job_list d0) as [| job rest] eqn:Hl.
    + destruct Hwd as [_ Hne]. exfalso. apply (Hne Hj). exact Hl.
    + destruct Hwd as [[db Hdb] _]. rewrite Hdb. cbn [mbind option_bind].
      match goal with
      | |- is_Some (enqueue_table_if_ready_locked p ?a ≫= _) =>
          destruct (enqueue_table_if_ready_locked_total p a) as [s3 ->]
      end.
      * cbn. rewrite list_lookup_insert_eq by exact Hp. eexists; reflexivity.
      * eexists; reflexivity.
Qed.

Lemma scan_table_list_total (l : list ptr) :
  forall (g : bool) (s : state),
    Forall (fun p => (p < length (tables s))%nat) l ->
    Forall (table_well_formed (databases s)) (tables s) ->
    is_Some (scan_table_list l g s).
Proof.
  induction l as [| p l IH]; intros g s Hl Hw; [eexists; reflexivity |].
  apply Forall_cons in Hl. destruct Hl as [Hp Hl].
  destruct (proj2 (lookup_lt_is_Some (tables s) p) Hp) as [d Hd].
  pose proof (proj1 (Forall_lookup _ _) Hw p d Hd) as Hwd.
  destruct Hwd as [[db Hdb] Hne].
  cbn [scan_table_list]. rewrite Hd. cbn [mbind option_bind].
  rewrite Hdb. cbn [mbind option_bind].
  destruct (status_eq (database_schema_state db) NOT_FOUND);
    [apply IH; assumption |].
  destruct (status_ge (schema_state d) DATA_DONE
            || status_eq (schema_state d) CREATED
               && (is_view d || is_sequence d));
    [apply IH; assumption |].
  destruct (negb (status_eq (schema_state d) CREATED));
    [apply IH; assumption |].
  destruct (0 <? job_count d) eqn:Hj.
  - apply N.ltb_lt in Hj.
    destruct (no_data d).
    + apply IH; cbn; rewrite ?length_insert; try exact Hl.
      apply Forall_insert; [exact Hw |]. split; cbn; [eauto |].
      intros _ Hmap. apply (Hne Hj).
      destruct (restore_job_list d); [reflexivity | discriminate Hmap].
    + destruct (max_threads d <=? current_threads d);
        [apply IH; assumption |].
      destruct (restore_job_list d) as [| job rest] eqn:Hjobs.
      * exfalso. apply (Hne Hj). reflexivity.
      * match goal with
        | |- is_Some (enqueue_table_if_ready_locked p ?a ≫= _) =>
            destruct (enqueue_table_if_ready_locked_total p a) as [s3 ->]
        end.
        -- cbn. rewrite list_lookup_insert_eq by exact Hp.
           eexists; reflexivity.
        -- eexists; reflexivity.
  - destruct (scan_data_done _ _); [| apply IH; assumption].
    apply IH; cbn; rewrite ?length_insert; try exact Hl.
    apply Forall_insert; [exact Hw |]. split; cbn; eauto.
Qed.

Lemma give_me_next_data_job_conf_total (s : state) :
  well_formed s -> is_Some (give_me_next_data_job_conf s).
Proof.
  intros ((q & Hq & Hvalid) & Hload & Hw).
  unfold give_me_next_data_job_conf.
  change (ready_table_queue (count_iteration s)) with (ready_table_queue s).
  rewrite Hq. cbn [mbind option_bind].
  destruct (ready_queue_loop_total q (count_iteration s) Hvalid Hw)
    as [o Ho].
  rewrite Ho. cbn [mbind option_bind].
  assert (Hr0 : reached s (count_iteration s)).
  { eapply reached_frame; [apply reached_refl | reflexivity ..]. }
  pose proof (ready_queue_loop_post s q _ _ Hr0 Ho) as Hpost.
  destruct o as [s1 | s1]; [eexists; reflexivity |].
  destruct Hpost as [[Hg Ht _] _].
  assert (Hl1 : loading_table_list s1 = loading_table_list s)
    by (unfold globals in Hg; congruence).
  assert (Hd1 : databases s1 = databases s)
    by (unfold globals in Hg; congruence).
  destruct (scan_table_list_total (loading_table_list s1) true s1)
    as [[[g oj] s2] Hscan].
  - rewrite Hl1, <- (Forall2_length _ _ _ Ht). exact Hload.
  - rewrite Hd1. apply Forall_lookup. intros p d' Hp'.
    destruct (Forall2_lookup_r _ _ _ _ _ Ht Hp') as (d & Hp & Hqd).
    eapply quiet_well_formed; [exact Hqd |].
    exact (proj1 (Forall_lookup _ _) Hw p d Hp).
  - rewrite Hscan. eexists; reflexivity.
Qed.

(** * The claims *)

(** ** The ready queue *)

(** C2 as stated fails without a ready queue.  In the state of a [--no-data]
    run ([conf->ready_table_queue] is NULL) a table meets every condition of
    the enqueue rule, and the call returns at once: nothing is pushed and
    [in_ready_queue] stays false. *)
Lemma enqueue_without_queue_pushes_nothing :
  table_is_ready table_with_jobs = true /\
  exists s',
    enqueue_table_if_ready_locked 0 (no_data_mode_state [table_with_jobs])
    = Some s' /\
    ready_table_queue s' = None /\
    (in_ready_queue <$> tables s' !! 0%nat) = Some false /\
    s' = no_data_mode_state [table_with_jobs].
Proof.
  split; [reflexivity |]. eexists. repeat split; reflexivity.
Qed.

(** C2, amended.  Without a ready queue the call changes nothing.  With one,
    the table is pushed exactly when its schema is CREATED, it has pending
    jobs, [current_threads < max_threads], it is not queued yet, [no_data]
    is off and it is neither a view nor a sequence; then [in_ready_queue]
    is set, and one WAKE_DATA_THREAD is posted when the waiting mutex exists
    and [threads_waiting > 0] (no event otherwise).  A table that is not
    pushed leaves the state as it was. *)
Theorem enqueue_table_if_ready_locked_rule (p : ptr) (s : state) :
  (ready_table_queue s = None ->
   enqueue_table_if_ready_locked p s = Some s) /\
  (forall (q : list ptr) (d : db_table),
     ready_table_queue s = Some q ->
     tables s !! p = Some d ->
     exists s',
       enqueue_table_if_ready_locked p s = Some s' /\
       (ready_table_queue s' = Some (q ++ [p]) <->
        schema_state d = CREATED /\ 0 < job_count d /\
        current_threads d < max_threads d /\ in_ready_queue d = false /\
        no_data d = false /\ is_view d = false /\ is_sequence d = false) /\
       (ready_table_queue s' = Some (q ++ [p]) ->
        tables s' = <[p := set_in_ready_queue true d]> (tables s) /\
        threads_waiting s' = threads_waiting s /\
        data_control_queue s' =
          if threads_waiting_mutex s && (0 <? threads_waiting s)
          then (fun c => c ++ [WAKE_DATA_THREAD]) <$> data_control_queue s
          else data_control_queue s) /\
       (ready_table_queue s' <> Some (q ++ [p]) -> s' = s)).
Proof.
  split.
  - intros Hq. unfold enqueue_table_if_ready_locked. rewrite Hq. reflexivity.
  - intros q d Hq Hp. unfold enqueue_table_if_ready_locked.
    rewrite Hq, Hp. cbn [mbind option_bind].
    assert (Hgrow : Some q <> Some (q ++ [p])).
    { intros [= Heq]. apply (f_equal length) in Heq.
      rewrite length_app in Heq. cbn in Heq. lia. }
    pose proof (table_is_ready_iff d) as Hready.
    destruct (table_is_ready d); eexists; (split; [reflexivity |]).
    + assert (Hpushed :
        ready_table_queue
          (wake_data_threads
             (set_ready_table_queue (Some (q ++ [p]))
                (store_table p (set_in_ready_queue true d) s)))
        = Some (q ++ [p])).
      { unfold wake_data_threads, data_control_queue_push. cbn.
        destruct (threads_waiting_mutex s), (0 <? threads_waiting s),
          (data_control_queue s); reflexivity. }
      split; [split; [intros _; apply Hready; reflexivity | auto] |].
      split; [| intros Hn; contradiction].
      intros _. unfold wake_data_threads, data_control_queue_push. cbn.
      destruct (threads_waiting_mutex s), (0 <? threads_waiting s),
        (data_control_queue s) eqn:Hdcq; cbn; rewrite ?Hdcq;
        repeat split; reflexivity.
    + rewrite Hq. split; [| split]; [| | reflexivity].
      * split; [intros Heq; contradiction |].
        intros Hall. apply Hready in Hall. discriminate Hall.
      * intros Heq. contradiction.
Qed.

Lemma enqueue_table_if_ready_locked_rule_witness :
  exists s',
    enqueue_table_if_ready_locked 0
      (set_threads_waiting 1 (initial_state [table_with_jobs] [0%nat]))
    = Some s' /\
    ready_table_queue s' = Some [0%nat] /\
    data_control_queue s' = Some [WAKE_DATA_THREAD].
Proof.
  destruct (enqueue_table_if_ready_locked_rule 0
              (set_threads_waiting 1 (initial_state [table_with_jobs] [0%nat])))
    as [_ Hrule].
  destruct (Hrule [] table_with_jobs eq_refl eq_refl)
    as (s' & Hrun & Hiff & Hpush & _).
  exists s'. split; [exact Hrun |].
  assert (Hq : ready_table_queue s' = Some ([] ++ [0%nat])).
  { apply Hiff. repeat split; reflexivity || (cbn; lia). }
  split; [exact Hq |].
  destruct (Hpush Hq) as (_ & _ & Hwake). exact Hwake.
Defined.

(** C7. On a table whose [in_ready_queue] is already set,
    [enqueue_table_if_ready_locked] changes nothing, however often it is
    called: the state after equals the state before, so the table is not
    pushed again and no wake-up event is posted. *)
Theorem enqueue_already_queued_is_noop (p : ptr) (s : state) (d : db_table)
  (k : nat) :
  tables s !! p = Some d ->
  in_ready_queue d = true ->
  enqueue_table_if_ready_locked p s = Some s /\
  Nat.iter k (fun o => o ≫= enqueue_table_if_ready_locked p) (Some s)
  = Some s.
Proof.
  intros Hp Hin.
  assert (Honce : enqueue_table_if_ready_locked p s = Some s).
  { unfold enqueue_table_if_ready_locked.
    destruct (ready_table_queue s); [| reflexivity].
    rewrite Hp. cbn [mbind option_bind].
    unfold table_is_ready. rewrite Hin.
    rewrite !andb_false_r. reflexivity. }
  split; [exact Honce |].
  induction k as [| k IH]; [reflexivity |].
  rewrite Nat.iter_succ, IH. exact Honce.
Qed.

Lemma enqueue_already_queued_is_noop_witness :
  let s := set_threads_waiting 1
             (initial_state [set_in_ready_queue true table_with_jobs]
                [0%nat]) in
  enqueue_table_if_ready_locked 0 s = Some s /\
  Nat.iter 3 (fun o => o ≫= enqueue_table_if_ready_locked 0) (Some s)
  = Some s.
Proof.
  intros s.
  apply (enqueue_already_queued_is_noop 0 s
           (set_in_ready_queue true table_with_jobs) 3);
    reflexivity.
Defined.

(** ** The control-job thread *)

(** C5 as stated fails: with two loaders waiting, one WAKE_DATA_THREAD makes
    the thread post two REQUEST_DATA_JOB events, and with none waiting it
    posts none. *)
Lemma wake_data_thread_posts_one_per_waiter :
  let s2 := set_threads_waiting 2 (initial_state [] []) in
  let s0 := initial_state [] [] in
  (exists s', control_step 4 WAKE_DATA_THREAD s2 = Some (true, s') /\
              data_control_queue s2 = Some [] /\
              data_control_queue s' =
                Some [REQUEST_DATA_JOB; REQUEST_DATA_JOB]) /\
  (exists s', control_step 4 WAKE_DATA_THREAD s0 = Some (true, s') /\
              data_control_queue s0 = Some [] /\
              data_control_queue s' = Some []).
Proof.
  split; eexists; repeat split; reflexivity.
Qed.

(** C5, amended.  For every WAKE_DATA_THREAD event the thread posts one
    REQUEST_DATA_JOB per waiting loader, that is [threads_waiting] of them,
    and resets [threads_waiting] to 0; the rest of the state is untouched
    and the loop goes on. *)
Theorem wake_data_thread_handling (n : N) (s : state)
  (q : list data_control_type) :
  threads_waiting_mutex s = true ->
  data_control_queue s = Some q ->
  control_step n WAKE_DATA_THREAD s =
  Some (true,
        set_threads_waiting 0
          (set_data_control_queue
             (Some (q ++ replicate (N.to_nat (threads_waiting s))
                           REQUEST_DATA_JOB)) s)).
Proof.
  intros Hm Hq. unfold control_step, wake_threads_waiting. rewrite Hm.
  cbn [negb]. do 2 f_equal.
  apply wake_loop_spec; [exact Hq | lia].
Qed.

Lemma wake_data_thread_handling_witness :
  control_step 4 WAKE_DATA_THREAD
    (set_threads_waiting 3 (initial_state [] []))
  = Some (true,
          set_data_control_queue
            (Some [REQUEST_DATA_JOB; REQUEST_DATA_JOB; REQUEST_DATA_JOB])
            (initial_state [] [])).
Proof.
  exact (wake_data_thread_handling 4
           (set_threads_waiting 3 (initial_state [] [])) []
           eq_refl eq_refl).
Defined.

(** C8. For every FILE_TYPE_ENDED event the thread, in this order, refreshes
    the loading table list, enqueues the indexes of the tables already done,
    sets [all_jobs_are_enqueued] and posts one REQUEST_DATA_JOB.  The log of
    calls shows [refresh_table_list] first and
    [enqueue_indexes_if_possible] second, both made while the flag still has
    the value it had before the event and while the control queue does not
    yet hold the new request: [all_jobs_are_enqueued] becomes true only
    after the refresh.  When the turn ends the flag is true, every table is
    in the loading list and the request is at the tail of the queue. *)
Theorem file_type_ended_handling (n : N) (s : state) :
  threads_waiting_mutex s = true ->
  exists s4 : state,
    control_step n FILE_TYPE_ENDED s = Some (true, s4) /\
    calls s4 =
      calls s ++
      [Ev_refresh_table_list (all_jobs_are_enqueued s)
         (data_control_queue s);
       Ev_enqueue_indexes_if_possible (all_jobs_are_enqueued s)
         (data_control_queue s)] /\
    all_jobs_are_enqueued s4 = true /\
    data_control_queue s4 =
      (fun q => q ++ [REQUEST_DATA_JOB]) <$> data_control_queue s /\
    (forall p : ptr, (p < length (tables s))%nat ->
                     p ∈ loading_table_list s4) /\
    (forall p : ptr, p ∈ loading_table_list s ->
                     p ∈ loading_table_list s4) /\
    tables s4 = tables s /\
    ready_table_queue s4 = ready_table_queue s /\
    threads_waiting s4 = threads_waiting s /\
    control_job_ended s4 = control_job_ended s.
Proof.
  intros Hm. unfold control_step. rewrite Hm. cbn [negb].
  eexists. split; [reflexivity |].
  unfold data_control_queue_push.
  change (data_control_queue
            (set_all_jobs_are_enqueued true
               (enqueue_indexes_if_possible (refresh_table_list s))))
    with (data_control_queue s).
  assert (Hall : forall p : ptr,
            (p < length (tables s))%nat \/ p ∈ loading_table_list s ->
            p ∈ loading_table_list
                  (set_all_jobs_are_enqueued true
                     (enqueue_indexes_if_possible (refresh_table_list s)))).
  { intros p Hp. cbn. apply elem_of_app.
    destruct (decide (p ∈ loading_table_list s)) as [Hold | Hnew];
      [left; exact Hold | right].
    destruct Hp as [Hp | Hp]; [| contradiction].
    apply list_elem_of_filter. split; [exact Hnew |].
    apply elem_of_seq. lia. }
  destruct (data_control_queue s) as [q |] eqn:Hq.
  - cbn. rewrite Hq, <- app_assoc.
    repeat split; try reflexivity; intros p Hp; apply Hall; auto.
  - cbn. rewrite Hq, <- app_assoc.
    repeat split; try reflexivity; intros p Hp; apply Hall; auto.
Qed.

Lemma file_type_ended_handling_witness :
  exists s4,
    control_step 4 FILE_TYPE_ENDED (initial_state [table_with_jobs] [])
    = Some (true, s4) /\
    calls s4 = [Ev_refresh_table_list false (Some []);
                Ev_enqueue_indexes_if_possible false (Some [])] /\
    all_jobs_are_enqueued s4 = true /\
    loading_table_list s4 = [0%nat] /\
    data_control_queue s4 = Some [REQUEST_DATA_JOB].
Proof.
  destruct (file_type_ended_handling 4
              (initial_state [table_with_jobs] []) eq_refl)
    as (s4 & Hstep & Hcalls & Hflag & Hq & _).
  exists s4. split; [exact Hstep |]. split; [exact Hcalls |].
  split; [exact Hflag |]. split; [| exact Hq].
  cbn in Hstep. injection Hstep as <-. reflexivity.
Defined.

(** C1. For every REQUEST_DATA_JOB event the thread calls
    [give_me_next_data_job_conf].  If the call left a job in [rj], the job is
    pushed onto the job channel.  Otherwise, if [all_jobs_are_enqueued] and
    the returned [giveup] are both true, [control_job_ended] is set, the end
    of the data phase is signalled and the loop is left.  Otherwise
    [threads_waiting] is incremented unless it has reached [num_threads]. *)
Theorem request_data_job_handling (n : N) (s s1 : state) (giveup : bool) :
  threads_waiting_mutex s = true ->
  give_me_next_data_job_conf s = Some (giveup, s1) ->
  (forall job,
     rj s1 = Some job ->
     control_step n REQUEST_DATA_JOB s = Some (true, data_job_push job s1) /\
     calls (data_job_push job s1) = calls s1 ++ [Ev_data_job_push job]) /\
  (rj s1 = None ->
   all_jobs_are_enqueued s && giveup = true ->
   let s2 := data_ended (set_control_job_ended true s1) in
   control_step n REQUEST_DATA_JOB s = Some (false, s2) /\
   control_job_ended s2 = true /\
   calls s2 = calls s1 ++ [Ev_data_ended]) /\
  (rj s1 = None ->
   all_jobs_are_enqueued s && giveup = false ->
   let s2 := park n s1 in
   control_step n REQUEST_DATA_JOB s = Some (true, s2) /\
   control_job_ended s2 = control_job_ended s /\
   threads_waiting s2 =
     (if threads_waiting s <? n then guint_inc (threads_waiting s)
      else threads_waiting s) /\
   (threads_waiting s <= n -> threads_waiting s2 <= n) /\
   (n < 4294967296 -> threads_waiting s < n ->
    threads_waiting s2 = threads_waiting s + 1) /\
   (n <= threads_waiting s -> s2 = s1)).
Proof.
  intros Hm Hrun.
  pose proof (globals_after_call _ _ _ Hrun) as Hg.
  unfold globals in Hg. injection Hg as Hcje Haje Htw _ _ _.
  unfold control_step. rewrite Hm, Hrun. cbn [negb mbind option_bind].
  rewrite Haje.
  split; [| split].
  - intros job Hj. rewrite Hj. split; reflexivity.
  - intros Hj Hend. rewrite Hj, Hend. repeat split; reflexivity.
  - intros Hj Hend. rewrite Hj, Hend. cbn zeta.
    split; [reflexivity |]. unfold park. rewrite Htw.
    destruct (threads_waiting s <? n) eqn:Hlt.
    + apply N.ltb_lt in Hlt. cbn.
      pose proof (guint_inc_le (threads_waiting s)) as Hle.
      repeat split; try assumption; try lia.
      intros Hn _. apply guint_inc_small. lia.
    + apply N.ltb_ge in Hlt. repeat split; try assumption; try lia.
Qed.

Lemma request_data_job_handling_witness :
  exists s1,
    control_step 4 REQUEST_DATA_JOB (initial_state [table_with_jobs] [0%nat])
    = Some (true, data_job_push (job 1) s1).
Proof.
  edestruct (request_data_job_handling 4
               (initial_state [table_with_jobs] [0%nat]))
    as (Hjob & _ & _); [reflexivity | vm_compute; reflexivity |].
  eexists. apply Hjob. reflexivity.
Defined.

(** ** Invariants of job selection *)

(** C3. A call of [give_me_next_data_job_conf] moves a table to DATA_DONE,
    on the ready-queue path or in the fallback scan, only when
    [all_jobs_are_enqueued] is true, the table has no pending job
    ([job_count == 0]), no job in flight ([current_threads == 0]) and
    [remaining_jobs] is 0; and the call then hands the table to
    [enqueue_index_for_dbt_if_possible]. *)
Theorem data_done_only_when_finished (s s' : state) (g : bool) (p : ptr)
  (d d' : db_table) :
  give_me_next_data_job_conf s = Some (g, s') ->
  tables s !! p = Some d ->
  tables s' !! p = Some d' ->
  schema_state d <> DATA_DONE ->
  schema_state d' = DATA_DONE ->
  all_jobs_are_enqueued s = true /\
  schema_state d = CREATED /\
  job_count d = 0 /\
  (job_count d = N.of_nat (length (restore_job_list d)) ->
   restore_job_list d = []) /\
  current_threads d = 0 /\
  remaining_jobs d = 0%Z /\
  exists ext,
    calls s' = calls s ++ ext /\
    Ev_enqueue_index_for_dbt_if_possible p ∈ ext.
Proof.
  intros Hrun Hp Hp' Hne Hdone.
  destruct (calls_after_call _ _ _ Hrun) as (ext & Hcalls & Hcov).
  destruct (table_after_call _ _ _ _ _ _ Hrun Hp Hp')
    as [Hq | (job & _ & Hd)].
  - destruct (quiet_data_done_inv _ _ _ Hq Hdone Hne)
      as (Ha & Hs & Hj & Hc & Hr).
    repeat split; try assumption.
    + rewrite Hj. intros Hlen.
      destruct (restore_job_list d); [reflexivity | cbn in Hlen; lia].
    + exists ext. split; [exact Hcalls |].
      exact (Hcov p d d' Hp Hp' Hne Hdone).
  - apply dispatch_state in Hd. rewrite Hd in Hdone. discriminate Hdone.
Qed.

Lemma data_done_only_when_finished_witness :
  let s := set_all_jobs_are_enqueued true
             (initial_state [table_drained] [0%nat]) in
  exists g s',
    give_me_next_data_job_conf s = Some (g, s') /\
    (schema_state <$> tables s' !! 0%nat) = Some DATA_DONE /\
    all_jobs_are_enqueued s = true /\
    current_threads table_drained = 0.
Proof.
  intros s.
  assert (Hrun : give_me_next_data_job_conf s
                 = Some (true,
                         set_stats (mk_statistics 0 1 0 0)
                           (enqueue_index_for_dbt_if_possible 0
                              (store_table 0
                                 (set_schema_state DATA_DONE table_drained)
                                 s)))) by reflexivity.
  exists true. eexists. split; [exact Hrun |]. split; [reflexivity |].
  destruct (data_done_only_when_finished s _ true 0 table_drained
              (set_schema_state DATA_DONE table_drained)
              Hrun eq_refl eq_refl)
    as (Ha & _ & _ & _ & Hc & _).
  - discriminate.
  - reflexivity.
  - split; [exact Ha | exact Hc].
Defined.

(** C4 as stated fails: the [no_data] branch of the fallback scan sets
    ALL_DONE and frees the payload of every pending job, but the jobs stay
    in [restore_job_list] and [job_count] keeps its value.  The branch does
    not test [current_threads] either: a [no_data] table that has a job in
    flight is closed with that job still in flight. *)
Lemma no_data_all_done_keeps_pending_jobs :
  (exists g s' d',
     give_me_next_data_job_conf (initial_state [table_no_data] [0%nat])
     = Some (g, s') /\
     tables s' !! 0%nat = Some d' /\
     schema_state d' = ALL_DONE /\
     restore_job_list d' = [g_free_drj (job 1); g_free_drj (job 2)] /\
     restore_job_list d' <> [] /\
     job_count d' = 2) /\
  (exists g s' d',
     give_me_next_data_job_conf
       (initial_state
          [mk_db_table 0 CREATED 2 1 4 false true false false
             [job 1; job 2] 2] [0%nat])
     = Some (g, s') /\
     tables s' !! 0%nat = Some d' /\
     schema_state d' = ALL_DONE /\
     current_threads d' = 1).
Proof.
  split.
  - do 3 eexists. split; [reflexivity |]. split; [reflexivity |].
    repeat split; try reflexivity. discriminate.
  - do 3 eexists. repeat split; reflexivity.
Qed.

Lemma quiet_no_data (aje : bool) (d d' : db_table) :
  quiet aje d d' -> no_data d' = no_data d.
Proof. intros [b | b ? ? ? ? ? | b ? ? ?]; reflexivity. Qed.

(** C4, amended.  For every table and every call of
    [give_me_next_data_job_conf]: a table that is ALL_DONE after the call
    has no job in flight, provided that before the call no ALL_DONE table
    and no [no_data] table had one; the call keeps that condition, as it
    never takes a job from such a table.  The pending jobs are not removed:
    the call moves a table to ALL_DONE only in the [no_data] branch of the
    fallback scan, from CREATED with [job_count > 0]; that branch frees the
    payload of each pending job, and keeps the jobs in [restore_job_list]
    and the value of [job_count].  So the list of an ALL_DONE table is empty
    after the call only if it was empty before, and it is not empty after
    the branch when [job_count] counts the list. *)
Theorem all_done_tables (s s' : state) (g : bool) :
  give_me_next_data_job_conf s = Some (g, s') ->
  done_tables_are_idle s ->
  done_tables_are_idle s' /\
  forall (p : ptr) (d d' : db_table),
    tables s !! p = Some d ->
    tables s' !! p = Some d' ->
    schema_state d' = ALL_DONE ->
    current_threads d' = 0 /\
    job_count d' = job_count d /\
    map rj_id (restore_job_list d') = map rj_id (restore_job_list d) /\
    (restore_job_list d' = [] <-> restore_job_list d = []) /\
    (schema_state d = ALL_DONE ->
     restore_job_list d' = restore_job_list d) /\
    (schema_state d <> ALL_DONE ->
     schema_state d = CREATED /\ no_data d = true /\ 0 < job_count d /\
     restore_job_list d' = map g_free_drj (restore_job_list d) /\
     (job_count d = N.of_nat (length (restore_job_list d)) ->
      restore_job_list d' <> [])).
Proof.
  intros Hrun Hidle.
  assert (Hstep : forall p d d',
            tables s !! p = Some d -> tables s' !! p = Some d' ->
            (schema_state d' = ALL_DONE \/ no_data d' = true ->
             current_threads d' = 0) /\
            (schema_state d' = ALL_DONE ->
             quiet (all_jobs_are_enqueued s) d d')).
  { intros p d d' Hp Hp'.
    destruct (table_after_call _ _ _ _ _ _ Hrun Hp Hp')
      as [Hq | (job & _ & Hd)].
    - split; [| intros _; exact Hq].
      destruct (quiet_threads _ _ _ Hq) as (Hc & _).
      rewrite Hc, (quiet_no_data _ _ _ Hq).
      intros [Hall | Hno]; [| apply (Hidle p d Hp); right; exact Hno].
      destruct (status_eq (schema_state d) ALL_DONE) eqn:Hnew;
        [apply status_eq_true in Hnew; apply (Hidle p d Hp); left;
         exact Hnew |].
      apply status_eq_false in Hnew.
      destruct (quiet_all_done_inv _ _ _ Hq Hall Hnew) as (_ & _ & Hn & _).
      apply (Hidle p d Hp). right. exact Hn.
    - pose proof (dispatch_state _ _ _ Hd) as Hs.
      destruct Hd as [b rest _ _ _ Hn _ _ _]. cbn in *.
      split; [intros [Hall | Hno]; congruence |].
      intros Hall. rewrite Hs in Hall. discriminate Hall. }
  split.
  - intros p d' Hp' Hwhy.
    destruct (proj2 (lookup_lt_is_Some (tables s) p)) as [d Hp].
    { rewrite <- (tables_length_after_call _ _ _ Hrun).
      eapply lookup_lt_Some, Hp'. }
    apply (proj1 (Hstep p d d' Hp Hp') Hwhy).
  - intros p d d' Hp Hp' Hall.
    destruct (Hstep p d d' Hp Hp') as [Hzero Hquiet].
    specialize (Hquiet Hall).
    split; [apply Hzero; left; exact Hall |].
    destruct (quiet_threads _ _ _ Hquiet) as (_ & _ & Hj & Hlen).
    split; [exact Hj |].
    assert (Hids : map rj_id (restore_job_list d')
                   = map rj_id (restore_job_list d)).
    { destruct Hquiet as [b | b ? ? ? ? ? | b ? ? ?]; cbn; try reflexivity.
      rewrite map_map. apply map_ext. intros j. reflexivity. }
    split; [exact Hids |].
    assert (Hnil : restore_job_list d' = [] <-> restore_job_list d = []).
    { destruct (restore_job_list d), (restore_job_list d');
        cbn in Hlen; split; intros H; try reflexivity; discriminate. }
    split; [exact Hnil |].
    split.
    + intros Hold.
      destruct Hquiet as [b | b Hs ? ? ? ? | b Hs ? ?]; cbn;
        try (rewrite Hold in Hs; discriminate Hs).
      reflexivity.
    + intros Hnew.
      destruct (quiet_all_done_inv _ _ _ Hquiet Hall Hnew)
        as (Hs & Hpos & Hn & Hl).
      repeat split; try assumption.
      intros Hcount Hempty. apply Hnil in Hempty.
      rewrite Hempty in Hcount. cbn in Hcount. lia.
Qed.

Lemma all_done_tables_witness :
  exists g s' d',
    give_me_next_data_job_conf (initial_state [table_no_data] [0%nat])
    = Some (g, s') /\
    tables s' !! 0%nat = Some d' /\
    schema_state d' = ALL_DONE /\
    current_threads d' = 0 /\
    job_count d' = job_count table_no_data /\
    restore_job_list d' <> [].
Proof.
  assert (Hrun : exists r,
             give_me_next_data_job_conf (initial_state [table_no_data] [0%nat])
             = Some r /\
             (schema_state <$> tables r.2 !! 0%nat) = Some ALL_DONE).
  { eexists. split; reflexivity. }
  destruct Hrun as ([g s'] & Hrun & Hstate). cbn [snd] in Hstate.
  destruct (tables s' !! 0%nat) as [d' |] eqn:Hp'; cbn in Hstate;
    [| discriminate Hstate].
  injection Hstate as Hstate.
  destruct (all_done_tables _ _ _ Hrun) as [_ Htables].
  - intros p d Hp _. destruct p as [| p]; cbn in Hp; [| discriminate Hp].
    injection Hp as <-. reflexivity.
  - destruct (Htables 0%nat table_no_data d' eq_refl Hp' Hstate)
      as (Hc & Hj & _ & _ & _ & Hnew).
    destruct (Hnew ltac:(discriminate)) as (_ & _ & _ & _ & Hfull).
    exists g, s', d'. repeat split; try assumption.
    apply Hfull. reflexivity.
Defined.

(** C6. Every call of [give_me_next_data_job_conf] preserves
    [0 <= current_threads <= max_threads] on every table: [max_threads] is
    not written, and [current_threads] is either left as it is or, on the
    table that gives the job, incremented after
    [current_threads < max_threads] was checked; it is never decremented. *)
Theorem current_threads_within_max (s s' : state) (g : bool) (p : ptr)
  (d d' : db_table) :
  give_me_next_data_job_conf s = Some (g, s') ->
  tables s !! p = Some d ->
  tables s' !! p = Some d' ->
  current_threads d <= max_threads d ->
  0 <= current_threads d' <= max_threads d' /\
  max_threads d' = max_threads d /\
  (current_threads d' = current_threads d \/
   current_threads d < max_threads d /\
   current_threads d' = guint_inc (current_threads d)) /\
  (max_threads d < 4294967296 ->
   current_threads d <= current_threads d' <= current_threads d + 1).
Proof.
  intros Hrun Hp Hp' Hle.
  destruct (table_after_call _ _ _ _ _ _ Hrun Hp Hp')
    as [Hq | (job & _ & Hd)].
  - destruct (quiet_threads _ _ _ Hq) as (Hc & Hm & _).
    rewrite Hc, Hm.
    split; [lia |]. split; [reflexivity |]. split; [left; reflexivity | lia].
  - destruct (dispatch_threads _ _ _ Hd) as (Hlt & Hc & Hm).
    pose proof (guint_inc_le (current_threads d)) as Hinc.
    rewrite Hc, Hm.
    split; [lia |]. split; [reflexivity |].
    split; [right; split; [exact Hlt | reflexivity] |].
    intros Hmax. rewrite guint_inc_small; lia.
Qed.

Lemma current_threads_within_max_witness :
  exists g s' d',
    give_me_next_data_job_conf (initial_state [table_with_jobs] [0%nat])
    = Some (g, s') /\
    tables s' !! 0%nat = Some d' /\
    current_threads d' = 1 /\
    0 <= current_threads d' <= max_threads d'.
Proof.
  assert (Hrun : exists r,
             give_me_next_data_job_conf
               (initial_state [table_with_jobs] [0%nat]) = Some r /\
             (current_threads <$> tables r.2 !! 0%nat) = Some 1).
  { eexists. split; reflexivity. }
  destruct Hrun as ([g s'] & Hrun & Hct). cbn [snd] in Hct.
  destruct (tables s' !! 0%nat) as [d' |] eqn:Hp'; cbn in Hct;
    [| discriminate Hct].
  injection Hct as Hct.
  destruct (current_threads_within_max _ _ _ 0 table_with_jobs d'
              Hrun eq_refl Hp') as (Hbound & _).
  - cbn. lia.
  - exists g, s', d'. repeat split; try assumption; apply Hbound.
Defined.

(** ** Termination on an empty dump *)

Lemma scan_table_list_skip_not_found (s : state) (p : ptr) (l : list ptr)
  (g : bool) (d : db_table) (db : database) :
  tables s !! p = Some d ->
  databases s !! table_database d = Some db ->
  database_schema_state db = NOT_FOUND ->
  scan_table_list (p :: l) g s = scan_table_list l g s.
Proof.
  intros Hp Hdb Hnf. cbn [scan_table_list].
  rewrite Hp. cbn [mbind option_bind]. rewrite Hdb. cbn [mbind option_bind].
  rewrite Hnf. reflexivity.
Qed.

Lemma scan_table_list_all_skipped (s : state) (l : list ptr) (g : bool) :
  Forall (skipped_or_terminal s) l ->
  scan_table_list l g s = Some (g, None, s).
Proof.
  induction 1 as [| p l (d & db & Hp & Hdb & Hwhy) _ IH]; [reflexivity |].
  destruct (status_eq (database_schema_state db) NOT_FOUND) eqn:Hnf.
  - apply status_eq_true in Hnf.
    rewrite (scan_table_list_skip_not_found s p l g d db Hp Hdb Hnf).
    exact IH.
  - destruct Hwhy as [Hnf' | Hterm];
      [apply status_eq_false in Hnf; contradiction |].
    cbn [scan_table_list].
    rewrite Hp. cbn [mbind option_bind]. rewrite Hdb.
    cbn [mbind option_bind]. rewrite Hnf.
    unfold terminal_for_data in Hterm. rewrite Hterm. exact IH.
Qed.

(** C9. A table whose database is NOT_FOUND is skipped by the fallback scan
    with [giveup] left as it is.  So, with an empty ready queue and every
    table of the loading list either skipped for that reason or terminal
    for data, [give_me_next_data_job_conf] returns [giveup = TRUE] and no
    job; and if [all_jobs_are_enqueued] is true, the thread sets
    [control_job_ended], signals the end of the data phase and leaves its
    loop on the first such REQUEST_DATA_JOB. *)
Theorem empty_dump_terminates (n : N) (s : state) :
  ready_table_queue s = Some [] ->
  Forall (skipped_or_terminal s) (loading_table_list s) ->
  (forall (p : ptr) (l : list ptr) (g : bool) (d : db_table) (db : database),
     tables s !! p = Some d ->
     databases s !! table_database d = Some db ->
     database_schema_state db = NOT_FOUND ->
     scan_table_list (p :: l) g s = scan_table_list l g s) /\
  give_me_next_data_job_conf s = Some (true, set_rj None (count_iteration s)) /\
  (threads_waiting_mutex s = true ->
   all_jobs_are_enqueued s = true ->
   let s_end :=
     data_ended (set_control_job_ended true
                   (set_rj None (count_iteration s))) in
   control_step n REQUEST_DATA_JOB s = Some (false, s_end) /\
   control_job_ended s_end = true /\
   forall (fuel : nat) (rest : list data_control_type),
     control_loop (S fuel) n
       (set_data_control_queue (Some (REQUEST_DATA_JOB :: rest)) s)
     = Some (Finished
               (start_optimize_keys_all_tables
                  (wait_loader_threads_to_finish
                     (set_data_control_queue (Some rest) s_end))))).
Proof.
  intros Hq Hall.
  assert (Hgive : forall q,
            give_me_next_data_job_conf (set_data_control_queue q s)
            = Some (true,
                    set_rj None
                      (count_iteration (set_data_control_queue q s)))).
  { intros q. unfold give_me_next_data_job_conf.
    change (ready_table_queue
              (count_iteration (set_data_control_queue q s)))
      with (ready_table_queue s).
    rewrite Hq. cbn [mbind option_bind ready_queue_loop].
    rewrite scan_table_list_all_skipped; [reflexivity |].
    eapply Forall_impl; [exact Hall |].
    intros p (d & db & Hp & Hdb & Hwhy). exists d, db. auto. }
  assert (Hgive0 : give_me_next_data_job_conf s
                   = Some (true, set_rj None (count_iteration s))).
  { unfold give_me_next_data_job_conf.
    change (ready_table_queue (count_iteration s))
      with (ready_table_queue s).
    rewrite Hq. cbn [mbind option_bind ready_queue_loop].
    rewrite scan_table_list_all_skipped; [reflexivity |].
    eapply Forall_impl; [exact Hall |].
    intros p (d & db & Hp & Hdb & Hwhy). exists d, db. auto. }
  split; [intros; eapply scan_table_list_skip_not_found; eassumption |].
  split; [exact Hgive0 |].
  intros Hm Haje. cbn zeta. split; [| split; [reflexivity |]].
  - unfold control_step. rewrite Hm, Hgive0. cbn. rewrite Haje. reflexivity.
  - intros fuel rest. cbn [control_loop data_control_queue
                            set_data_control_queue mbind option_bind].
    unfold control_step.
    change (threads_waiting_mutex
              (set_data_control_queue (Some rest)
                 (set_data_control_queue
                    (Some (REQUEST_DATA_JOB :: rest)) s)))
      with (threads_waiting_mutex s).
    rewrite Hm. cbn [negb].
    change (set_data_control_queue (Some rest)
              (set_data_control_queue (Some (REQUEST_DATA_JOB :: rest)) s))
      with (set_data_control_queue (Some rest) s).
    rewrite Hgive. cbn. rewrite Haje. reflexivity.
Qed.

Lemma empty_dump_terminates_witness :
  let s := set_all_jobs_are_enqueued true
             (initial_state
                [table_orphan; set_schema_state ALL_DONE table_drained]
                [0%nat; 1%nat]) in
  exists s_end,
    control_step 4 REQUEST_DATA_JOB s = Some (false, s_end) /\
    control_job_ended s_end = true.
Proof.
  intros s.
  destruct (empty_dump_terminates 4 s) as (_ & _ & Hend).
  - reflexivity.
  - repeat constructor.
    + exists table_orphan, (mk_database NOT_FOUND).
      repeat split; try reflexivity. left. reflexivity.
    + exists (set_schema_state ALL_DONE table_drained),
        (mk_database CREATED).
      repeat split; try reflexivity. right. reflexivity.
  - destruct (Hend eq_refl eq_refl) as (Hstep & Hcje & _).
    eexists. split; [exact Hstep | exact Hcje].
Defined.

(** ** The out-parameter [*rj] *)

Lemma dispatch_jobs (job : restore_job) (d d' : db_table) :
  dispatch job d d' ->
  restore_job_list d = job :: restore_job_list d'.
Proof. intros [b rest _ _ _ _ _ _ Hl]. exact Hl. Qed.

(** C10. Every return of [give_me_next_data_job_conf] has assigned [*rj]:
    the result of the call does not depend on what [rj] held before, and
    after the call [rj] is either the job this very call removed from the
    head of a table's pending list (and then [giveup] is false) or NULL
    with no table having lost a job.  Hence the REQUEST_DATA_JOB turn of
    the thread does not depend on the [rj] left by an earlier turn.  On a
    well-formed state the call does return. *)
Theorem rj_assigned_on_every_return (n : N) (s : state)
  (stale : option restore_job) :
  give_me_next_data_job_conf (set_rj stale s)
  = give_me_next_data_job_conf s /\
  control_step n REQUEST_DATA_JOB (set_rj stale s)
  = control_step n REQUEST_DATA_JOB s /\
  (well_formed s ->
   is_Some (give_me_next_data_job_conf (set_rj stale s))) /\
  (forall (g : bool) (s' : state),
     give_me_next_data_job_conf (set_rj stale s) = Some (g, s') ->
     match rj s' with
     | Some job =>
         g = false /\
         exists (p : ptr) (d d' : db_table),
           tables s !! p = Some d /\ tables s' !! p = Some d' /\
           restore_job_list d = job :: restore_job_list d'
     | None =>
         forall (p : ptr) (d d' : db_table),
           tables s !! p = Some d -> tables s' !! p = Some d' ->
           length (restore_job_list d') = length (restore_job_list d)
     end).
Proof.
  pose proof (give_me_next_data_job_conf_rj s stale) as Hsame.
  split; [exact Hsame |]. split; [| split].
  - unfold control_step.
    change (threads_waiting_mutex (set_rj stale s))
      with (threads_waiting_mutex s).
    rewrite Hsame. reflexivity.
  - intros Hwf. rewrite Hsame.
    apply give_me_next_data_job_conf_total, Hwf.
  - intros g s' Hrun. rewrite Hsame in Hrun.
    pose proof (give_me_next_data_job_conf_post _ _ _ Hrun) as Hpost.
    destruct (rj s') as [job |].
    + destruct Hpost as [Hg [p [_ (d0 & d0' & t1 & Hp0 & Ht1 & Ht' & Hd) _]]].
      split; [exact Hg |]. exists p, d0, d0'.
      split; [exact Hp0 |]. split; [| exact (dispatch_jobs _ _ _ Hd)].
      rewrite Ht'. apply list_lookup_insert_eq.
      rewrite <- (Forall2_length _ _ _ Ht1). eapply lookup_lt_Some, Hp0.
    + intros p d d' Hp Hp'.
      pose proof (Forall2_lookup_lr _ _ _ _ _ _
                    (reached_tables _ _ Hpost) Hp Hp') as Hq.
      apply (quiet_threads _ _ _ Hq).
Qed.

Lemma rj_assigned_on_every_return_witness :
  let s := set_all_jobs_are_enqueued true
             (initial_state [table_drained] [0%nat]) in
  exists g s',
    give_me_next_data_job_conf (set_rj (Some (job 9)) s) = Some (g, s') /\
    rj s' = None /\
    is_Some (control_step 4 REQUEST_DATA_JOB (set_rj (Some (job 9)) s)).
Proof.
  intros s.
  destruct (rj_assigned_on_every_return 4 s (Some (job 9)))
    as (Hsame & Hstep & _ & _).
  rewrite Hsame, Hstep.
  do 2 eexists. split; [reflexivity |]. split; [reflexivity |].
  eexists. reflexivity.
Defined.

(** * Further properties of the code *)

(** ** One call, table by table *)

Lemma dispatch_counts (job : restore_job) (d d' : db_table) :
  dispatch job d d' ->
  0 < job_count d /\ job_count d' = job_count d - 1 /\
  no_longer_ready d = false.
Proof.
  intros [b rest Hs Hj Hc Hn Hv Hq Hl]. cbn.
  split; [exact Hj |]. split; [reflexivity |].
  apply no_longer_ready_false. auto 10.
Qed.

(** X1. [job_count] keeps counting the pending list: if a table's
    [job_count] equals the length of its [restore_job_list] before a call of
    [give_me_next_data_job_conf], it does so after the call. *)
Theorem job_count_tracks_list (s s' : state) (g : bool) (p : ptr)
  (d d' : db_table) :
  give_me_next_data_job_conf s = Some (g, s') ->
  tables s !! p = Some d ->
  tables s' !! p = Some d' ->
  job_count d = N.of_nat (length (restore_job_list d)) ->
  job_count d' = N.of_nat (length (restore_job_list d')).
Proof.
  intros Hrun Hp Hp' Hcount.
  destruct (table_after_call _ _ _ _ _ _ Hrun Hp Hp')
    as [Hq | (job & _ & Hd)].
  - destruct (quiet_threads _ _ _ Hq) as (_ & _ & Hj & Hl).
    rewrite Hj, Hl. exact Hcount.
  - destruct (dispatch_counts _ _ _ Hd) as (Hpos & Hj & _).
    apply dispatch_jobs in Hd. rewrite Hd in Hcount. cbn in Hcount.
    rewrite Hj. lia.
Qed.

Lemma job_count_tracks_list_witness :
  exists g s' d',
    give_me_next_data_job_conf (initial_state [table_with_jobs] [0%nat])
    = Some (g, s') /\
    tables s' !! 0%nat = Some d' /\
    restore_job_list d' = [job 2] /\
    job_count d' = N.of_nat (length (restore_job_list d')).
Proof.
  assert (Hrun : exists r,
             give_me_next_data_job_conf
               (initial_state [table_with_jobs] [0%nat]) = Some r /\
             (restore_job_list <$> tables r.2 !! 0%nat) = Some [job 2]).
  { eexists. split; reflexivity. }
  destruct Hrun as ([g s'] & Hrun & Hl). cbn [snd] in Hl.
  destruct (tables s' !! 0%nat) as [d' |] eqn:Hp'; cbn in Hl;
    [| discriminate Hl].
  injection Hl as Hl.
  exists g, s', d'. split; [exact Hrun |]. split; [exact Hp' |].
  split; [exact Hl |].
  exact (job_count_tracks_list _ _ _ 0 table_with_jobs d' Hrun eq_refl Hp'
           eq_refl).
Defined.

(** X2. A call never moves a table backwards: the integer value of
    [schema_state] does not decrease, and a table that is not CREATED when
    the call starts keeps every field except, possibly, [in_ready_queue]. *)
Theorem schema_state_never_decreases (s s' : state) (g : bool) (p : ptr)
  (d d' : db_table) :
  give_me_next_data_job_conf s = Some (g, s') ->
  tables s !! p = Some d ->
  tables s' !! p = Some d' ->
  schema_status_value (schema_state d) <= schema_status_value (schema_state d')
  /\ (schema_state d <> CREATED ->
      d' = set_in_ready_queue (in_ready_queue d') d).
Proof.
  intros Hrun Hp Hp'.
  destruct (table_after_call _ _ _ _ _ _ Hrun Hp Hp')
    as [Hq | (job & _ & Hd)].
  - destruct Hq as [b | b Hs ? ? ? ? | b Hs ? ?]; cbn.
    + split; [lia | reflexivity].
    + rewrite Hs. cbn. split; [lia | intros Hne; contradiction].
    + rewrite Hs. cbn. split; [lia | intros Hne; contradiction].
  - destruct Hd as [b rest Hs ? ? ? ? ? ?]. cbn.
    split; [lia | intros Hne; contradiction].
Qed.

Lemma schema_state_never_decreases_witness :
  exists g s' d',
    give_me_next_data_job_conf (initial_state [table_orphan] [0%nat])
    = Some (g, s') /\
    tables s' !! 0%nat = Some d' /\
    d' = set_in_ready_queue (in_ready_queue d') table_orphan.
Proof.
  assert (Hrun : exists r,
             give_me_next_data_job_conf
               (initial_state [table_orphan] [0%nat]) = Some r /\
             is_Some (tables r.2 !! 0%nat)).
  { eexists. split; [reflexivity |]. eexists. reflexivity. }
  destruct Hrun as ([g s'] & Hrun & [d' Hp']). cbn [snd] in Hp'.
  exists g, s', d'. split; [exact Hrun |]. split; [exact Hp' |].
  apply (schema_state_never_decreases _ _ _ 0 table_orphan d'
           Hrun eq_refl Hp').
  discriminate.
Defined.

(** X3. A table that fails the re-validation of the ready-queue path (not
    CREATED, no pending job, at its thread limit, [no_data], a view or a
    sequence) gives no job, neither on the ready-queue path nor in the
    fallback scan: its [current_threads], [job_count] and the length of its
    pending list are unchanged by the call.  (The converse does not hold:
    the scan also passes over the tables of a NOT_FOUND database.) *)
Theorem ineligible_table_gives_no_job (s s' : state) (g : bool) (p : ptr)
  (d d' : db_table) :
  give_me_next_data_job_conf s = Some (g, s') ->
  tables s !! p = Some d ->
  tables s' !! p = Some d' ->
  no_longer_ready d = true ->
  current_threads d' = current_threads d /\
  job_count d' = job_count d /\
  length (restore_job_list d') = length (restore_job_list d).
Proof.
  intros Hrun Hp Hp' Hnot.
  destruct (table_after_call _ _ _ _ _ _ Hrun Hp Hp')
    as [Hq | (job & _ & Hd)].
  - destruct (quiet_threads _ _ _ Hq) as (Hc & _ & Hj & Hl). auto.
  - destruct (dispatch_counts _ _ _ Hd) as (_ & _ & Hready).
    rewrite Hready in Hnot. discriminate Hnot.
Qed.

Lemma ineligible_table_gives_no_job_witness :
  exists g s' d',
    give_me_next_data_job_conf (initial_state [table_no_data] [0%nat])
    = Some (g, s') /\
    tables s' !! 0%nat = Some d' /\
    current_threads d' = 0 /\ job_count d' = 2.
Proof.
  assert (Hrun : exists r,
             give_me_next_data_job_conf
               (initial_state [table_no_data] [0%nat]) = Some r /\
             is_Some (tables r.2 !! 0%nat)).
  { eexists. split; [reflexivity |]. eexists. reflexivity. }
  destruct Hrun as ([g s'] & Hrun & [d' Hp']). cbn [snd] in Hp'.
  destruct (ineligible_table_gives_no_job _ _ _ 0 table_no_data d'
              Hrun eq_refl Hp' eq_refl) as (Hc & Hj & _).
  exists g, s', d'. repeat split; assumption.
Defined.

(** X4. One call hands out at most one job: [current_threads] changes on at
    most one table, and on none when the call leaves NULL in [*rj]. *)
Theorem at_most_one_table_dispatches (s s' : state) (g : bool)
  (p1 p2 : ptr) (d1 d1' d2 d2' : db_table) :
  give_me_next_data_job_conf s = Some (g, s') ->
  tables s !! p1 = Some d1 -> tables s' !! p1 = Some d1' ->
  tables s !! p2 = Some d2 -> tables s' !! p2 = Some d2' ->
  current_threads d1' <> current_threads d1 ->
  (rj s' <> None) /\
  (current_threads d2' <> current_threads d2 -> p1 = p2).
Proof.
  intros Hrun Hp1 Hp1' Hp2 Hp2' Hch1.
  pose proof (give_me_next_data_job_conf_post _ _ _ Hrun) as Hpost.
  destruct (rj s') as [job |].
  - split; [discriminate |]. intros Hch2.
    destruct Hpost as [_ [p [_ (d0 & d0' & t1 & Hp0 & Ht1 & Ht' & Hd) _]]].
    assert (Hsame : forall q e e',
               tables s !! q = Some e -> tables s' !! q = Some e' ->
               current_threads e' <> current_threads e -> q = p).
    { intros q e e' Hq Hq' Hch.
      destruct (decide (q = p)) as [-> | Hne]; [reflexivity |].
      exfalso. apply Hch. rewrite Ht' in Hq'.
      rewrite list_lookup_insert_ne in Hq' by congruence.
      pose proof (Forall2_lookup_lr _ _ _ _ _ _ Ht1 Hq Hq') as Hquiet.
      apply (quiet_threads _ _ _ Hquiet). }
    rewrite (Hsame _ _ _ Hp1 Hp1' Hch1), (Hsame _ _ _ Hp2 Hp2' Hch2).
    reflexivity.
  - exfalso. apply Hch1.
    pose proof (Forall2_lookup_lr _ _ _ _ _ _
                  (reached_tables _ _ Hpost) Hp1 Hp1') as Hquiet.
    apply (quiet_threads _ _ _ Hquiet).
Qed.

Lemma at_most_one_table_dispatches_witness :
  let s := initial_state [table_with_jobs; table_with_jobs]
             [0%nat; 1%nat] in
  exists g s' d0' d1',
    give_me_next_data_job_conf s = Some (g, s') /\
    tables s' !! 0%nat = Some d0' /\ tables s' !! 1%nat = Some d1' /\
    rj s' <> None /\ current_threads d1' = 0.
Proof.
  intros s.
  assert (Hrun : exists r,
             give_me_next_data_job_conf s = Some r /\
             (current_threads <$> tables r.2 !! 0%nat) = Some 1 /\
             (current_threads <$> tables r.2 !! 1%nat) = Some 0).
  { eexists. repeat split; reflexivity. }
  destruct Hrun as ([g s'] & Hrun & H0 & H1). cbn [snd] in H0, H1.
  destruct (tables s' !! 0%nat) as [d0' |] eqn:Hp0; cbn in H0;
    [| discriminate H0].
  destruct (tables s' !! 1%nat) as [d1' |] eqn:Hp1; cbn in H1;
    [| discriminate H1].
  injection H0 as H0. injection H1 as H1.
  destruct (at_most_one_table_dispatches s s' g 0 1 table_with_jobs d0'
              table_with_jobs d1' Hrun eq_refl Hp0 eq_refl Hp1)
    as [Hrj _].
  - rewrite H0. discriminate.
  - exists g, s', d0', d1'. repeat split; assumption.
Defined.

(** ** The guard flag and the ready queue *)

Lemma queue_flags_agree_update (s s' : state) (p : ptr) (d d1 : db_table) :
  queue_flags_agree s ->
  tables s !! p = Some d ->
  in_ready_queue d1 = in_ready_queue d ->
  ready_table_queue s' = ready_table_queue s ->
  tables s' = <[p := d1]> (tables s) ->
  queue_flags_agree s'.
Proof.
  intros (q & Hq & Hnd & Hin) Hp Hflag Hq' Ht'.
  exists q. split; [congruence |]. split; [exact Hnd |].
  intros p2. rewrite Hin, Ht'.
  destruct (decide (p = p2)) as [<- | Hne].
  - rewrite list_lookup_insert_eq by (eapply lookup_lt_Some, Hp).
    rewrite Hp. cbn. rewrite Hflag. reflexivity.
  - rewrite list_lookup_insert_ne by exact Hne. reflexivity.
Qed.

Lemma queue_flags_agree_frame (s s' : state) :
  queue_flags_agree s ->
  ready_table_queue s' = ready_table_queue s ->
  tables s' = tables s ->
  queue_flags_agree s'.
Proof.
  intros (q & Hq & Hnd & Hin) Hq' Ht'.
  exists q. rewrite Hq', Ht'. auto.
Qed.

(** Popping [p] and clearing its flag. *)
Lemma queue_flags_agree_pop (s s' : state) (p : ptr) (q' : list ptr)
  (d d1 : db_table) :
  queue_flags_agree s ->
  ready_table_queue s = Some (p :: q') ->
  tables s !! p = Some d ->
  in_ready_queue d1 = false ->
  ready_table_queue s' = Some q' ->
  tables s' = <[p := d1]> (tables s) ->
  queue_flags_agree s'.
Proof.
  intros (q & Hq & Hnd & Hin) Hpq Hp Hflag Hq' Ht'.
  rewrite Hpq in Hq. injection Hq as <-.
  apply NoDup_cons in Hnd. destruct Hnd as [Hnotin Hnd].
  exists q'. split; [exact Hq' |]. split; [exact Hnd |].
  intros p2. rewrite Ht'.
  destruct (decide (p = p2)) as [<- | Hne].
  - rewrite list_lookup_insert_eq by (eapply lookup_lt_Some, Hp).
    cbn. rewrite Hflag. split; [intros Hin'; contradiction | discriminate].
  - rewrite list_lookup_insert_ne by exact Hne.
    rewrite <- Hin. rewrite elem_of_cons. split; [auto |].
    intros [Heq | Hin']; [congruence | exact Hin'].
Qed.

Lemma queue_flags_agree_enqueue (p : ptr) (s s' : state) :
  queue_flags_agree s ->
  enqueue_table_if_ready_locked p s = Some s' ->
  queue_flags_agree s'.
Proof.
  intros (q & Hq & Hnd & Hin). unfold enqueue_table_if_ready_locked.
  rewrite Hq.
  destruct (tables s !! p) as [d |] eqn:Hp; [| discriminate].
  cbn [mbind option_bind].
  destruct (table_is_ready d) eqn:Hready.
  - intros [= <-].
    apply table_is_ready_iff in Hready.
    destruct Hready as (_ & _ & _ & Hflag & _).
    assert (Hnotin : p ∉ q).
    { rewrite Hin, Hp. cbn. rewrite Hflag. discriminate. }
    assert (Hq' : ready_table_queue
                    (wake_data_threads
                       (set_ready_table_queue (Some (q ++ [p]))
                          (store_table p (set_in_ready_queue true d) s)))
                  = Some (q ++ [p])).
    { unfold wake_data_threads, data_control_queue_push. cbn.
      destruct (threads_waiting_mutex s), (0 <? threads_waiting s),
        (data_control_queue s); reflexivity. }
    assert (Ht' : tables
                    (wake_data_threads
                       (set_ready_table_queue (Some (q ++ [p]))
                          (store_table p (set_in_ready_queue true d) s)))
                  = <[p := set_in_ready_queue true d]> (tables s)).
    { unfold wake_data_threads, data_control_queue_push. cbn.
      destruct (threads_waiting_mutex s), (0 <? threads_waiting s),
        (data_control_queue s); reflexivity. }
    exists (q ++ [p]). split; [exact Hq' |]. split.
    + apply NoDup_app. split; [exact Hnd |]. split.
      * intros x Hx Hx'. apply list_elem_of_singleton in Hx'. congruence.
      * apply NoDup_singleton.
    + intros p2. rewrite Ht', elem_of_app, list_elem_of_singleton.
      destruct (decide (p = p2)) as [<- | Hne].
      * rewrite list_lookup_insert_eq by (eapply lookup_lt_Some, Hp).
        cbn. split; auto.
      * rewrite list_lookup_insert_ne by exact Hne. rewrite <- Hin.
        split; [intros [Hx | Hx]; [exact Hx | congruence] | auto].
  - intros [= <-]. exists q. auto.
Qed.

Lemma ready_queue_loop_flags (q : list ptr) :
  forall (s : state) (o : queue_outcome),
    ready_table_queue s = Some q ->
    queue_flags_agree s ->
    ready_queue_loop q s = Some o ->
    match o with
    | QueueEmpty s' => queue_flags_agree s' /\ ready_table_queue s' = Some []
    | Dispatched s' => queue_flags_agree s'
    end.
Proof.
  induction q as [| p q IH]; intros s o Hq Hinv Hrun.
  - injection Hrun as <-. auto.
  - cbn [ready_queue_loop] in Hrun.
    change (tables (set_ready_table_queue (Some q) s)) with (tables s) in Hrun.
    destruct (tables s !! p) as [d0 |] eqn:Hp; [| discriminate Hrun].
    cbn [mbind option_bind] in Hrun.
    destruct (no_longer_ready (set_in_ready_queue false d0)).
    + destruct (queue_data_done _ _);
        (apply IH in Hrun; [exact Hrun | reflexivity |]).
      * apply (queue_flags_agree_pop s _ p q d0
                 (set_schema_state DATA_DONE (set_in_ready_queue false d0))
                 Hinv Hq Hp); reflexivity.
      * apply (queue_flags_agree_pop s _ p q d0
                 (set_in_ready_queue false d0) Hinv Hq Hp); reflexivity.
    + cbn [restore_job_list set_in_ready_queue] in Hrun.
      destruct (restore_job_list d0) as [| job rest]; [discriminate Hrun |].
      apply bind_Some in Hrun. destruct Hrun as (db & _ & Hrun).
      apply bind_Some in Hrun. destruct Hrun as (s3 & Henq & [= <-]).
      apply queue_flags_agree_enqueue in Henq.
      * eapply queue_flags_agree_frame; [exact Henq | reflexivity ..].
      * apply (queue_flags_agree_pop s _ p q d0
                 (take_job rest (set_in_ready_queue false d0)) Hinv Hq Hp);
          reflexivity.
Qed.

Lemma scan_table_list_flags (l : list ptr) :
  forall (g : bool) (s : state) (g' : bool) (oj : option restore_job)
         (s' : state),
    queue_flags_agree s ->
    scan_table_list l g s = Some (g', oj, s') ->
    queue_flags_agree s' /\
    (oj = None -> ready_table_queue s' = ready_table_queue s).
Proof.
  induction l as [| p l IH]; intros g s g' oj s' Hinv Hrun.
  - injection Hrun as <- <- <-. auto.
  - cbn [scan_table_list] in Hrun.
    destruct (tables s !! p) as [d |] eqn:Hp; [| discriminate Hrun].
    cbn [mbind option_bind] in Hrun.
    destruct (databases s !! table_database d) as [db |];
      [| discriminate Hrun].
    cbn [mbind option_bind] in Hrun.
    destruct (status_eq (database_schema_state db) NOT_FOUND);
      [exact (IH _ _ _ _ _ Hinv Hrun) |].
    destruct (status_ge (schema_state d) DATA_DONE
              || status_eq (schema_state d) CREATED
                 && (is_view d || is_sequence d));
      [exact (IH _ _ _ _ _ Hinv Hrun) |].
    destruct (negb (status_eq (schema_state d) CREATED));
      [exact (IH _ _ _ _ _ Hinv Hrun) |].
    destruct (0 <? job_count d).
    + destruct (no_data d).
      * apply IH in Hrun; [exact Hrun |].
        apply (queue_flags_agree_update s _ p d
                 (set_schema_state ALL_DONE
                    (set_restore_job_list
                       (map g_free_drj (restore_job_list d)) d))
                 Hinv Hp); reflexivity.
      * destruct (max_threads d <=? current_threads d);
          [exact (IH _ _ _ _ _ Hinv Hrun) |].
        destruct (restore_job_list d) as [| job rest]; [discriminate Hrun |].
        apply bind_Some in Hrun.
        destruct Hrun as (s2 & Henq & [= <- <- <-]).
        split; [| discriminate].
        apply queue_flags_agree_enqueue in Henq; [exact Henq |].
        apply (queue_flags_agree_update s _ p d (take_job rest d) Hinv Hp);
          reflexivity.
    + destruct (scan_data_done _ _); [| exact (IH _ _ _ _ _ Hinv Hrun)].
      apply IH in Hrun; [exact Hrun |].
      apply (queue_flags_agree_update s _ p d
               (set_schema_state DATA_DONE d) Hinv Hp); reflexivity.
Qed.

Lemma queue_flags_agree_after_call (s s' : state) (g : bool) :
  queue_flags_agree s ->
  give_me_next_data_job_conf s = Some (g, s') ->
  queue_flags_agree s' /\
  (rj s' = None -> ready_table_queue s' = Some []).
Proof.
  intros Hinv. unfold give_me_next_data_job_conf. intros Hrun.
  apply bind_Some in Hrun. destruct Hrun as (q & Hq & Hrun).
  apply bind_Some in Hrun. destruct Hrun as (o & Hloop & Hrun).
  assert (Hinv0 : queue_flags_agree (count_iteration s))
    by (eapply queue_flags_agree_frame; [exact Hinv | reflexivity ..]).
  pose proof (ready_queue_loop_flags q _ _ Hq Hinv0 Hloop) as Hpost.
  destruct o as [s1 | s1].
  - injection Hrun as <- <-. split; [exact Hpost |].
    pose proof (ready_queue_loop_post (count_iteration s) q _ _
                  (reached_refl _) Hloop) as (job & p & Hrj & _).
    rewrite Hrj. discriminate.
  - destruct Hpost as [Hinv1 Hq1].
    apply bind_Some in Hrun. destruct Hrun as ([[g1 oj] s2] & Hscan & Hrun).
    injection Hrun as <- <-.
    destruct (scan_table_list_flags _ _ _ _ _ _ Hinv1 Hscan) as [Hinv2 Hq2].
    split.
    + eapply queue_flags_agree_frame; [exact Hinv2 | reflexivity ..].
    + cbn. intros ->. rewrite <- Hq1. exact (Hq2 eq_refl).
Qed.

(** X5. Double enqueue is impossible.  If the ready queue holds no table
    twice and holds exactly the tables whose [in_ready_queue] is set, the
    same is true after [enqueue_table_if_ready_locked] on any table and
    after [give_me_next_data_job_conf]; and a call that finds no job leaves
    the ready queue empty. *)
Theorem ready_queue_matches_flags (s : state) :
  queue_flags_agree s ->
  (forall (p : ptr) (s' : state),
     enqueue_table_if_ready_locked p s = Some s' -> queue_flags_agree s') /\
  (forall (g : bool) (s' : state),
     give_me_next_data_job_conf s = Some (g, s') ->
     queue_flags_agree s' /\
     (rj s' = None -> ready_table_queue s' = Some [])).
Proof.
  intros Hinv. split.
  - intros p s'. apply queue_flags_agree_enqueue, Hinv.
  - intros g s'. apply queue_flags_agree_after_call, Hinv.
Qed.

Lemma ready_queue_matches_flags_witness :
  exists g s',
    give_me_next_data_job_conf (initial_state [table_with_jobs] [0%nat])
    = Some (g, s') /\
    ready_table_queue s' = Some [0%nat] /\
    queue_flags_agree s'.
Proof.
  destruct (ready_queue_matches_flags
              (initial_state [table_with_jobs] [0%nat])) as [_ Hcall].
  - exists []. split; [reflexivity |]. split; [apply NoDup_nil_2 |].
    intros p. destruct p as [| p]; cbn;
      (split; [intros Hin; inversion Hin | discriminate]).
  - do 2 eexists. split; [reflexivity |]. split; [reflexivity |].
    eapply Hcall. reflexivity.
Defined.

(** ** What a call posts on the control queue *)

Lemma enqueue_table_if_ready_locked_posts (p : ptr) (s s' : state) :
  enqueue_table_if_ready_locked p s = Some s' -> posts_at_most_wake s s'.
Proof.
  unfold enqueue_table_if_ready_locked, posts_at_most_wake.
  destruct (ready_table_queue s) as [q |]; [| intros [= <-]; auto].
  destruct (tables s !! p) as [d |]; [| discriminate].
  cbn [mbind option_bind].
  destruct (table_is_ready d); [| intros [= <-]; auto].
  intros [= <-]. unfold wake_data_threads, data_control_queue_push. cbn.
  destruct (threads_waiting_mutex s); [| auto].
  destruct (0 <? threads_waiting s) eqn:Htw; [| auto].
  apply N.ltb_lt in Htw.
  destruct (data_control_queue s) as [c |] eqn:Hc; cbn; rewrite ?Hc;
    [| auto].
  right. split; [reflexivity |]. split; [exact Htw |].
  exists c. auto.
Qed.

Lemma ready_queue_loop_posts (q : list ptr) :
  forall (s : state) (o : queue_outcome),
    ready_queue_loop q s = Some o ->
    match o with
    | QueueEmpty s' => data_control_queue s' = data_control_queue s
    | Dispatched s' => posts_at_most_wake s s'
    end.
Proof.
  induction q as [| p q IH]; intros s o Hrun.
  - injection Hrun as <-. reflexivity.
  - cbn [ready_queue_loop] in Hrun.
    change (tables (set_ready_table_queue (Some q) s)) with (tables s) in Hrun.
    destruct (tables s !! p) as [d0 |]; [| discriminate Hrun].
    cbn [mbind option_bind] in Hrun.
    destruct (no_longer_ready (set_in_ready_queue false d0)).
    + destruct (queue_data_done _ _); apply IH in Hrun; exact Hrun.
    + cbn [restore_job_list set_in_ready_queue] in Hrun.
      destruct (restore_job_list d0) as [| job rest]; [discriminate Hrun |].
      apply bind_Some in Hrun. destruct Hrun as (db & _ & Hrun).
      apply bind_Some in Hrun. destruct Hrun as (s3 & Henq & [= <-]).
      apply enqueue_table_if_ready_locked_posts in Henq. exact Henq.
Qed.

Lemma scan_table_list_posts (l : list ptr) :
  forall (g : bool) (s : state) (g' : bool) (oj : option restore_job)
         (s' : state),
    scan_table_list l g s = Some (g', oj, s') ->
    match oj with
    | None => data_control_queue s' = data_control_queue s
    | Some _ => posts_at_most_wake s s'
    end.
Proof.
  induction l as [| p l IH]; intros g s g' oj s' Hrun.
  - injection Hrun as <- <- <-. reflexivity.
  - cbn [scan_table_list] in Hrun.
    destruct (tables s !! p) as [d |]; [| discriminate Hrun].
    cbn [mbind option_bind] in Hrun.
    destruct (databases s !! table_database d) as [db |];
      [| discriminate Hrun].
    cbn [mbind option_bind] in Hrun.
    destruct (status_eq (database_schema_state db) NOT_FOUND);
      [exact (IH _ _ _ _ _ Hrun) |].
    destruct (status_ge (schema_state d) DATA_DONE
              || status_eq (schema_state d) CREATED
                 && (is_view d || is_sequence d));
      [exact (IH _ _ _ _ _ Hrun) |].
    destruct (negb (status_eq (schema_state d) CREATED));
      [exact (IH _ _ _ _ _ Hrun) |].
    destruct (0 <? job_count d).
    + destruct (no_data d); [exact (IH _ _ _ _ _ Hrun) |].
      destruct (max_threads d <=? current_threads d);
        [exact (IH _ _ _ _ _ Hrun) |].
      destruct (restore_job_list d) as [| job rest]; [discriminate Hrun |].
      apply bind_Some in Hrun.
      destruct Hrun as (s2 & Henq & [= <- <- <-]).
      apply enqueue_table_if_ready_locked_posts in Henq. exact Henq.
    + destruct (scan_data_done _ _); exact (IH _ _ _ _ _ Hrun).
Qed.

Lemma posts_after_call (s s' : state) (g : bool) :
  give_me_next_data_job_conf s = Some (g, s') ->
  match rj s' with
  | None => data_control_queue s' = data_control_queue s
  | Some _ => posts_at_most_wake s s'
  end.
Proof.
  unfold give_me_next_data_job_conf. intros Hrun.
  apply bind_Some in Hrun. destruct Hrun as (q & Hq & Hrun).
  apply bind_Some in Hrun. destruct Hrun as (o & Hloop & Hrun).
  pose proof (ready_queue_loop_posts q _ _ Hloop) as Hpost.
  destruct o as [s1 | s1].
  - injection Hrun as <- <-.
    pose proof (ready_queue_loop_post (count_iteration s) q _ _
                  (reached_refl _) Hloop) as (job & p & Hrj & _).
    rewrite Hrj. exact Hpost.
  - apply bind_Some in Hrun. destruct Hrun as ([[g1 oj] s2] & Hscan & Hrun).
    injection Hrun as <- <-.
    pose proof (scan_table_list_posts _ _ _ _ _ _ Hscan) as Hpost2.
    pose proof (ready_queue_loop_post (count_iteration s) q _ _
                  (reached_refl _) Hloop) as [[Hg _ _] _].
    unfold globals in Hg. injection Hg as _ _ Htw1 Hm1 _ _.
    cbn in Htw1, Hm1, Hpost.
    destruct oj as [job |]; unfold posts_at_most_wake; cbn.
    + destruct Hpost2 as [Hsame | (Hm & Htw & c & Hc & Hc')].
      * left. rewrite Hsame. exact Hpost.
      * right. rewrite <- Hm1, <- Htw1.
        split; [exact Hm |]. split; [exact Htw |].
        exists c. split; [| exact Hc']. rewrite <- Hpost. exact Hc.
    + rewrite Hpost2. exact Hpost.
Qed.

(** X6. A call posts at most one event on the control queue, a
    WAKE_DATA_THREAD, and only when it hands out a job while a loader is
    counted as waiting; a call that finds no job posts nothing.  The count
    of waiting loaders itself is not touched. *)
Theorem call_posts_at_most_one_wake (s s' : state) (g : bool) :
  give_me_next_data_job_conf s = Some (g, s') ->
  threads_waiting s' = threads_waiting s /\
  (rj s' = None -> data_control_queue s' = data_control_queue s) /\
  (data_control_queue s' = data_control_queue s \/
   rj s' <> None /\ threads_waiting_mutex s = true /\
   0 < threads_waiting s /\
   exists q, data_control_queue s = Some q /\
             data_control_queue s' = Some (q ++ [WAKE_DATA_THREAD])).
Proof.
  intros Hrun.
  pose proof (globals_after_call _ _ _ Hrun) as Hg.
  unfold globals in Hg. injection Hg as _ _ Htw _ _ _.
  pose proof (posts_after_call _ _ _ Hrun) as Hpost.
  split; [exact Htw |].
  destruct (rj s') as [job |].
  - split; [discriminate |].
    destruct Hpost as [Hsame | (Hm & Hpos & Hq)]; [left; exact Hsame |].
    right. split; [discriminate |]. auto.
  - split; [intros _; exact Hpost | left; exact Hpost].
Qed.

Lemma call_posts_at_most_one_wake_witness :
  exists g s',
    give_me_next_data_job_conf
      (set_threads_waiting 1 (initial_state [table_drained] [0%nat]))
    = Some (g, s') /\
    data_control_queue s' = Some [].
Proof.
  assert (Hrun : exists r,
             give_me_next_data_job_conf
               (set_threads_waiting 1 (initial_state [table_drained] [0%nat]))
             = Some r /\ rj r.2 = None).
  { eexists. split; reflexivity. }
  destruct Hrun as ([g s'] & Hrun & Hrj). cbn [snd] in Hrj.
  destruct (call_posts_at_most_one_wake _ _ _ Hrun) as (_ & Hnone & _).
  exists g, s'. split; [exact Hrun |]. exact (Hnone Hrj).
Defined.

(** ** Consistent states *)

Lemma quiet_database (aje : bool) (d d' : db_table) :
  quiet aje d d' -> table_database d' = table_database d.
Proof. intros [b | b ? ? ? ? ? | b ? ? ?]; reflexivity. Qed.

Lemma quiet_consistent (aje : bool) (dbs : list database) (d d' : db_table) :
  quiet aje d d' -> table_consistent dbs d -> table_consistent dbs d'.
Proof.
  intros Hq [Hdb Hj]. unfold table_consistent.
  rewrite (quiet_database _ _ _ Hq).
  destruct (quiet_threads _ _ _ Hq) as (_ & _ & -> & ->). auto.
Qed.

Lemma dispatch_consistent (job : restore_job) (dbs : list database)
  (d d' : db_table) :
  dispatch job d d' -> table_consistent dbs d -> table_consistent dbs d'.
Proof.
  intros [b rest Hs Hj Hc Hn Hv Hq Hl] [Hdb Hle]. split; [exact Hdb |].
  cbn. rewrite Hl in Hle. cbn in Hle. lia.
Qed.

Lemma consistent_well_formed (s : state) : consistent s -> well_formed s.
Proof.
  intros ((q & Hq & _ & Hin) & Hload & Ht). split; [| split].
  - exists q. split; [exact Hq |]. apply Forall_forall. intros p Hp.
    apply Hin in Hp.
    destruct (tables s !! p) as [d |] eqn:Hd; [| discriminate Hp].
    eapply lookup_lt_Some, Hd.
  - exact Hload.
  - eapply Forall_impl; [exact Ht |]. intros d [Hdb Hle].
    split; [exact Hdb |]. intros Hpos Hnil. rewrite Hnil in Hle.
    cbn in Hle. lia.
Qed.

Lemma consistent_after_call (s s' : state) (g : bool) :
  consistent s ->
  give_me_next_data_job_conf s = Some (g, s') ->
  consistent s'.
Proof.
  intros (Hflags & Hload & Ht) Hrun.
  pose proof (globals_after_call _ _ _ Hrun) as Hg.
  unfold globals in Hg. injection Hg as _ _ _ _ Hl Hd.
  split; [| split].
  - apply (queue_flags_agree_after_call _ _ _ Hflags Hrun).
  - rewrite Hl, (tables_length_after_call _ _ _ Hrun). exact Hload.
  - rewrite Hd. apply Forall_lookup. intros p d' Hp'.
    destruct (proj2 (lookup_lt_is_Some (tables s) p)) as [d Hp].
    { rewrite <- (tables_length_after_call _ _ _ Hrun).
      eapply lookup_lt_Some, Hp'. }
    pose proof (proj1 (Forall_lookup _ _) Ht p d Hp) as Hcons.
    destruct (table_after_call _ _ _ _ _ _ Hrun Hp Hp')
      as [Hq | (job & _ & Hdisp)].
    + eapply quiet_consistent; eassumption.
    + eapply dispatch_consistent; eassumption.
Qed.

(** X7. The dispatcher keeps its heap in order.  On a state where the ready
    queue matches the guard flags, the loading list holds valid table
    pointers, every table points to a database and no [job_count] exceeds
    the length of its pending list, [give_me_next_data_job_conf] returns
    (no NULL list head, no invalid pointer is touched) and leaves a state
    of the same kind, so that any number of calls in a row return. *)
Theorem calls_keep_state_consistent (s : state) (k : nat) :
  consistent s ->
  is_Some (give_me_next_data_job_conf s) /\
  (forall (g : bool) (s' : state),
     give_me_next_data_job_conf s = Some (g, s') -> consistent s') /\
  exists s', repeat_calls k s = Some s' /\ consistent s'.
Proof.
  intros Hc. split; [| split].
  - apply give_me_next_data_job_conf_total, consistent_well_formed, Hc.
  - intros g s'. apply consistent_after_call, Hc.
  - revert s Hc. induction k as [| k IH]; intros s Hc.
    + exists s. split; [reflexivity | exact Hc].
    + destruct (give_me_next_data_job_conf_total s
                  (consistent_well_formed s Hc)) as [[g s1] Hrun].
      cbn [repeat_calls]. rewrite Hrun. cbn [mbind option_bind snd].
      apply IH. exact (consistent_after_call _ _ _ Hc Hrun).
Qed.

Lemma calls_keep_state_consistent_witness :
  exists s',
    repeat_calls 3 (initial_state [table_with_jobs] [0%nat]) = Some s' /\
    consistent s'.
Proof.
  apply (calls_keep_state_consistent
           (initial_state [table_with_jobs] [0%nat]) 3).
  split; [| split].
  - exists []. split; [reflexivity |]. split; [apply NoDup_nil_2 |].
    intros p. destruct p as [| p]; cbn;
      (split; [intros Hin; inversion Hin | discriminate]).
  - repeat constructor.
  - repeat constructor; cbn; [eexists; reflexivity | lia].
Defined.

(** ** The control thread on consistent states *)

Lemma consistent_frame (s s' : state) :
  consistent s ->
  ready_table_queue s' = ready_table_queue s ->
  tables s' = tables s ->
  loading_table_list s' = loading_table_list s ->
  databases s' = databases s ->
  consistent s'.
Proof.
  intros (Hflags & Hload & Ht) Hq Htab Hl Hd. split; [| split].
  - eapply queue_flags_agree_frame; eassumption.
  - rewrite Hl, Htab. exact Hload.
  - rewrite Hd, Htab. exact Ht.
Qed.

Lemma wake_threads_waiting_explicit (s : state)
  (q : list data_control_type) :
  threads_waiting_mutex s = true ->
  data_control_queue s = Some q ->
  wake_threads_waiting s =
  set_threads_waiting 0
    (set_data_control_queue
       (Some (q ++ replicate (N.to_nat (threads_waiting s))
                     REQUEST_DATA_JOB)) s).
Proof.
  intros Hm Hq. unfold wake_threads_waiting. rewrite Hm.
  apply wake_loop_spec; [exact Hq | lia].
Qed.

Lemma control_step_ready (n : N) (ft : data_control_type) (s : state) :
  thread_ready s ->
  exists (cont : bool) (s' : state),
    control_step n ft s = Some (cont, s') /\ thread_ready s'.
Proof.
  intros (Hc & Hm & [c Hq]). unfold control_step. rewrite Hm. cbn [negb].
  destruct ft.
  - (* REQUEST_DATA_JOB *)
    destruct (give_me_next_data_job_conf_total s
                (consistent_well_formed s Hc)) as [[g s1] Hrun].
    rewrite Hrun. cbn [mbind option_bind].
    pose proof (consistent_after_call _ _ _ Hc Hrun) as Hc1.
    pose proof (globals_after_call _ _ _ Hrun) as Hg.
    unfold globals in Hg. injection Hg as _ _ _ Hm1 _ _.
    assert (Hq1 : is_Some (data_control_queue s1)).
    { pose proof (posts_after_call _ _ _ Hrun) as Hpost.
      destruct (rj s1).
      - destruct Hpost as [-> | (_ & _ & c' & _ & ->)]; eauto.
      - rewrite Hpost, Hq. eauto. }
    assert (Hready1 : thread_ready s1)
      by (split; [exact Hc1 | split; [congruence | exact Hq1]]).
    destruct (rj s1) as [job |]; [do 2 eexists; split; [reflexivity |] |].
    + exact Hready1.
    + destruct (all_jobs_are_enqueued s1 && g);
        do 2 eexists; (split; [reflexivity |]).
      * exact Hready1.
      * unfold park. destruct (threads_waiting s1 <? n); exact Hready1.
  - (* WAKE_DATA_THREAD *)
    do 2 eexists. split; [reflexivity |].
    rewrite (wake_threads_waiting_explicit s c Hm Hq).
    split; [eapply consistent_frame; [exact Hc | reflexivity ..] |].
    split; [exact Hm | eexists; reflexivity].
  - (* FILE_TYPE_SCHEMA_ENDED *)
    do 2 eexists. split; [reflexivity |].
    rewrite (wake_threads_waiting_explicit s c Hm Hq).
    split; [eapply consistent_frame; [exact Hc | reflexivity ..] |].
    split; [exact Hm | eexists; reflexivity].
  - (* FILE_TYPE_ENDED *)
    do 2 eexists. split; [reflexivity |].
    unfold data_control_queue_push. cbn. rewrite Hq.
    destruct Hc as (Hflags & Hload & Ht).
    split; [| split; [exact Hm | eexists; reflexivity]].
    split; [| split].
    + eapply queue_flags_agree_frame; [exact Hflags | reflexivity ..].
    + cbn. apply Forall_app. split; [exact Hload |].
      apply Forall_forall. intros p Hp.
      apply list_elem_of_filter in Hp. destruct Hp as [_ Hp].
      apply elem_of_seq in Hp. lia.
    + exact Ht.
  - (* SHUTDOWN *)
    do 2 eexists. split; [reflexivity |].
    split; [exact Hc | split; [exact Hm | eexists; exact Hq]].
Qed.

Lemma control_loop_ready (n : N) (fuel : nat) :
  forall s : state,
    thread_ready s ->
    exists o : outcome,
      control_loop fuel n s = Some o /\ thread_ready (final_state o).
Proof.
  induction fuel as [| fuel IH]; intros s Hr.
  - exists (OutOfFuel s). split; [reflexivity | exact Hr].
  - cbn [control_loop].
    destruct Hr as (Hc & Hm & [q Hq]). rewrite Hq.
    cbn [mbind option_bind].
    destruct q as [| ft q'].
    + exists (Blocked s). split; [reflexivity |].
      split; [exact Hc | split; [exact Hm | eexists; exact Hq]].
    + destruct (control_step_ready n ft
                  (set_data_control_queue (Some q') s))
        as (cont & s1 & Hstep & Hr1).
      { split; [eapply consistent_frame; [exact Hc | reflexivity ..] |].
        split; [exact Hm | eexists; reflexivity]. }
      rewrite Hstep. cbn [mbind option_bind].
      destruct cont; [apply IH, Hr1 |].
      eexists. split; [reflexivity |].
      destruct Hr1 as (Hc1 & Hm1 & Hq1).
      split; [eapply consistent_frame; [exact Hc1 | reflexivity ..] |].
      split; [exact Hm1 | exact Hq1].
Qed.

(** X8. The control thread never leaves defined behaviour.  Started on a
    consistent state with its control queue and mutex created, the thread
    handles every sequence of control events without touching an invalid
    pointer or the head of an empty job list, whatever the bound on the
    number of events handled, and it stops in a state of the same kind. *)
Theorem control_thread_is_safe (n : N) (fuel : nat) (s : state) :
  thread_ready s ->
  exists o : outcome,
    worker_loader_main_thread fuel n s = Some o /\
    thread_ready (final_state o).
Proof.
  intros (Hc & Hm & Hq). unfold worker_loader_main_thread.
  apply control_loop_ready.
  split; [eapply consistent_frame; [exact Hc | reflexivity ..] |].
  split; [exact Hm | exact Hq].
Qed.

Lemma control_thread_is_safe_witness :
  exists o,
    worker_loader_main_thread 5 4
      (set_data_control_queue (Some [REQUEST_DATA_JOB; FILE_TYPE_ENDED])
         (initial_state [table_with_jobs] [0%nat]))
    = Some o /\
    thread_ready (final_state o).
Proof.
  apply control_thread_is_safe.
  split; [| split; [reflexivity | eexists; reflexivity]].
  split; [| split].
  - exists []. split; [reflexivity |]. split; [apply NoDup_nil_2 |].
    intros p. destruct p as [| p]; cbn;
      (split; [intros Hin; inversion Hin | discriminate]).
  - repeat constructor.
  - repeat constructor; cbn; [eexists; reflexivity | lia].
Defined.

(** ** The counters of the control thread *)

Lemma control_step_threads_waiting (n : N) (ft : data_control_type)
  (s s' : state) (cont : bool) :
  control_step n ft s = Some (cont, s') ->
  threads_waiting s <= n ->
  threads_waiting s' <= n.
Proof.
  unfold control_step.
  destruct (threads_waiting_mutex s) eqn:Hm; [| discriminate].
  cbn [negb]. intros Hstep Hle.
  destruct ft.
  - apply bind_Some in Hstep. destruct Hstep as ([g s1] & Hrun & Hstep).
    pose proof (globals_after_call _ _ _ Hrun) as Hg.
    unfold globals in Hg. injection Hg as _ _ Htw _ _ _.
    destruct (rj s1) as [job |]; [injection Hstep as <- <-; cbn; lia |].
    destruct (all_jobs_are_enqueued s1 && g);
      injection Hstep as <- <-; [cbn; lia |].
    unfold park. destruct (threads_waiting s1 <? n) eqn:Hlt; [| lia].
    apply N.ltb_lt in Hlt. cbn.
    pose proof (guint_inc_le (threads_waiting s1)). lia.
  - injection Hstep as <- <-.
    rewrite (wake_threads_waiting_drains s Hm). lia.
  - injection Hstep as <- <-.
    rewrite (wake_threads_waiting_drains s Hm). lia.
  - injection Hstep as <- <-. unfold data_control_queue_push. cbn.
    destruct (data_control_queue s); exact Hle.
  - injection Hstep as <- <-. exact Hle.
Qed.

(** X9. The count of parked loaders stays within the number of loader
    threads: if [threads_waiting <= num_threads] when the control thread
    starts handling events, it holds in whatever state the thread blocks,
    finishes or is stopped. *)
Theorem threads_waiting_stays_bounded (n : N) (fuel : nat) (s : state)
  (o : outcome) :
  threads_waiting s <= n ->
  control_loop fuel n s = Some o ->
  threads_waiting (final_state o) <= n.
Proof.
  revert s. induction fuel as [| fuel IH]; intros s Hle Hrun.
  - injection Hrun as <-. exact Hle.
  - cbn [control_loop] in Hrun.
    apply bind_Some in Hrun. destruct Hrun as (q & Hq & Hrun).
    destruct q as [| ft q']; [injection Hrun as <-; exact Hle |].
    apply bind_Some in Hrun. destruct Hrun as ([cont s1] & Hstep & Hrun).
    pose proof (control_step_threads_waiting _ _ _ _ _ Hstep Hle) as Hle1.
    destruct cont; [exact (IH _ Hle1 Hrun) |].
    injection Hrun as <-. exact Hle1.
Qed.

Lemma threads_waiting_stays_bounded_witness :
  exists o,
    control_loop 6 1
      (set_data_control_queue
         (Some [REQUEST_DATA_JOB; REQUEST_DATA_JOB; REQUEST_DATA_JOB])
         (initial_state [table_orphan] [0%nat]))
    = Some o /\
    threads_waiting (final_state o) <= 1.
Proof.
  destruct (control_loop 6 1
              (set_data_control_queue
                 (Some [REQUEST_DATA_JOB; REQUEST_DATA_JOB; REQUEST_DATA_JOB])
                 (initial_state [table_orphan] [0%nat])))
    as [o |] eqn:Hrun; [| discriminate Hrun].
  exists o. split; [reflexivity |].
  apply (threads_waiting_stays_bounded 1 6 _ o) in Hrun; [exact Hrun |].
  cbn. lia.
Defined.

Lemma wake_threads_waiting_keeps_flags (s : state) :
  all_jobs_are_enqueued (wake_threads_waiting s) = all_jobs_are_enqueued s /\
  control_job_ended (wake_threads_waiting s) = control_job_ended s.
Proof.
  unfold wake_threads_waiting.
  destruct (threads_waiting_mutex s); [| auto].
  generalize (N.to_nat (threads_waiting s)). intros k. revert s.
  induction k as [| k IH]; intros s; [auto |].
  cbn [wake_loop]. destruct (0 <? threads_waiting s); [| auto].
  assert (Hone : all_jobs_are_enqueued (wake_one_waiting s)
                 = all_jobs_are_enqueued s
                 /\ control_job_ended (wake_one_waiting s)
                    = control_job_ended s).
  { unfold wake_one_waiting, data_control_queue_push.
    destruct (data_control_queue s); cbn; auto. }
  destruct Hone as (Ha1 & Hc1).
  destruct (IH (wake_one_waiting s)) as [Ha Hc]. split; congruence.
Qed.

Lemma control_step_ended (n : N) (ft : data_control_type) (s s' : state)
  (cont : bool) :
  control_step n ft s = Some (cont, s') ->
  (all_jobs_are_enqueued s = true -> all_jobs_are_enqueued s' = true) /\
  (cont = true -> control_job_ended s' = control_job_ended s) /\
  (control_job_ended s' = true ->
   control_job_ended s = true \/
   cont = false /\ all_jobs_are_enqueued s' = true /\
   exists pre, calls s' = pre ++ [Ev_data_ended]).
Proof.
  unfold control_step.
  destruct (threads_waiting_mutex s) eqn:Hm; [| discriminate].
  cbn [negb]. intros Hstep.
  destruct ft.
  - apply bind_Some in Hstep. destruct Hstep as ([g s1] & Hrun & Hstep).
    pose proof (globals_after_call _ _ _ Hrun) as Hg.
    unfold globals in Hg. injection Hg as Hcje Haje _ _ _ _.
    destruct (rj s1) as [job |];
      [injection Hstep as <- <-; cbn; rewrite Hcje, Haje; auto |].
    destruct (all_jobs_are_enqueued s1 && g) eqn:Hend;
      injection Hstep as <- <-; cbn.
    + apply andb_true_iff in Hend. destruct Hend as [Ha _].
      split; [auto |]. split; [discriminate |].
      intros _. right. split; [reflexivity |]. split; [exact Ha |].
      exists (calls s1). reflexivity.
    + unfold park. destruct (threads_waiting s1 <? n); cbn;
        rewrite Hcje, Haje; auto.
  - injection Hstep as <- <-.
    destruct (wake_threads_waiting_keeps_flags s) as [-> ->]. auto.
  - injection Hstep as <- <-.
    destruct (wake_threads_waiting_keeps_flags s) as [-> ->]. auto.
  - injection Hstep as <- <-. unfold data_control_queue_push. cbn.
    destruct (data_control_queue s); cbn; auto.
  - injection Hstep as <- <-. auto.
Qed.

(** X10. The end of the data phase is declared once and for good reason.
    Over any run of the control loop, [all_jobs_are_enqueued] is never
    reset; [control_job_ended] becomes true only in a run that leaves the
    loop, with [all_jobs_are_enqueued] true and [data_ended] called; and a
    run that leaves the loop, by giving up or by SHUTDOWN, ends with the
    calls [wait_loader_threads_to_finish], [start_optimize_keys_all_tables]
    in this order. *)
Theorem end_of_data_phase (n : N) (fuel : nat) (s : state) (o : outcome) :
  control_loop fuel n s = Some o ->
  (all_jobs_are_enqueued s = true ->
   all_jobs_are_enqueued (final_state o) = true) /\
  (control_job_ended s = false ->
   control_job_ended (final_state o) = true ->
   all_jobs_are_enqueued (final_state o) = true /\
   (exists s1, o = Finished s1) /\
   Ev_data_ended ∈ calls (final_state o)) /\
  (forall s1, o = Finished s1 ->
     exists pre,
       calls s1 = pre ++ [Ev_wait_loader_threads_to_finish;
                          Ev_start_optimize_keys_all_tables]).
Proof.
  revert s. induction fuel as [| fuel IH]; intros s Hrun.
  - injection Hrun as <-. cbn. split; [auto |]. split.
    + intros H0 H1. congruence.
    + intros s1 [=].
  - cbn [control_loop] in Hrun.
    apply bind_Some in Hrun. destruct Hrun as (q & Hq & Hrun).
    destruct q as [| ft q'].
    { injection Hrun as <-. cbn. split; [auto |]. split.
      - intros H0 H1. congruence.
      - intros s1 [=]. }
    apply bind_Some in Hrun. destruct Hrun as ([cont s1] & Hstep & Hrun).
    destruct (control_step_ended _ _ _ _ _ Hstep) as (Haje & Hcont & Hend).
    cbn in Haje, Hcont, Hend.
    destruct cont.
    + destruct (IH _ Hrun) as (Ha & Hc & Hf).
      split; [auto |]. split; [| exact Hf].
      intros H0. apply Hc. rewrite Hcont by reflexivity. exact H0.
    + injection Hrun as <-. cbn. split; [exact Haje |]. split.
      * intros H0 H1. destruct (Hend H1) as [Hold | (_ & Ha & pre & Hcalls)];
          [congruence |].
        split; [exact Ha |]. split; [eexists; reflexivity |].
        rewrite Hcalls. rewrite !elem_of_app, list_elem_of_singleton. auto.
      * intros s2 [= <-]. exists (calls s1). cbn.
        rewrite <- app_assoc. reflexivity.
Qed.

Lemma end_of_data_phase_witness :
  exists s1,
    control_loop 4 4
      (set_data_control_queue (Some [FILE_TYPE_ENDED])
         (initial_state [table_drained] [0%nat]))
    = Some (Finished s1) /\
    control_job_ended s1 = true /\
    all_jobs_are_enqueued s1 = true.
Proof.
  assert (Hrun : exists s1,
             control_loop 4 4
               (set_data_control_queue (Some [FILE_TYPE_ENDED])
                  (initial_state [table_drained] [0%nat]))
             = Some (Finished s1) /\
             control_job_ended s1 = true).
  { eexists. split; vm_compute; reflexivity. }
  destruct Hrun as (s1 & Hrun & Hcje).
  exists s1. split; [exact Hrun |]. split; [exact Hcje |].
  destruct (end_of_data_phase _ _ _ _ Hrun) as (_ & Hend & _).
  apply (Hend eq_refl Hcje).
Defined.

(** X11. FILE_TYPE_SCHEMA_ENDED wakes every parked loader: the thread posts
    one REQUEST_DATA_JOB per loader counted in [threads_waiting] and resets
    the count; handling a second FILE_TYPE_SCHEMA_ENDED or a
    WAKE_DATA_THREAD right after changes nothing. *)
Theorem schema_ended_wakes_all_once (n : N) (s : state)
  (q : list data_control_type) :
  threads_waiting_mutex s = true ->
  data_control_queue s = Some q ->
  let s1 :=
    set_threads_waiting 0
      (set_data_control_queue
         (Some (q ++ replicate (N.to_nat (threads_waiting s))
                       REQUEST_DATA_JOB)) s) in
  control_step n FILE_TYPE_SCHEMA_ENDED s = Some (true, s1) /\
  control_step n FILE_TYPE_SCHEMA_ENDED s1 = Some (true, s1) /\
  control_step n WAKE_DATA_THREAD s1 = Some (true, s1).
Proof.
  intros Hm Hq s1.
  assert (Hagain : wake_threads_waiting s1 = s1).
  { unfold wake_threads_waiting, s1. cbn. rewrite Hm. reflexivity. }
  unfold control_step.
  change (threads_waiting_mutex s1) with (threads_waiting_mutex s).
  rewrite Hm. cbn [negb].
  rewrite Hagain, (wake_threads_waiting_explicit s q Hm Hq). auto.
Qed.

Lemma schema_ended_wakes_all_once_witness :
  let s1 := set_data_control_queue
              (Some [REQUEST_DATA_JOB; REQUEST_DATA_JOB])
              (initial_state [] []) in
  control_step 4 FILE_TYPE_SCHEMA_ENDED
    (set_threads_waiting 2 (initial_state [] []))
  = Some (true, s1) /\
  control_step 4 FILE_TYPE_SCHEMA_ENDED s1 = Some (true, s1).
Proof.
  intros s1.
  destruct (schema_ended_wakes_all_once 4
              (set_threads_waiting 2 (initial_state [] [])) []
              eq_refl eq_refl) as (Hfirst & Hsecond & _).
  split; [exact Hfirst | exact Hsecond].
Defined.

(** X12. The ready queue is served from its head, and a table that is
    served goes to its tail.  When the table at the head of the queue
    passes the re-validation and points to a database (whose name the
    dispatch logs, whatever its [schema_state]), the call returns the first
    job of that table without changing any other table, and the table is
    queued again behind the others exactly when it still has a pending job
    and is below its thread limit. *)
Theorem ready_queue_head_is_served (s : state) (p : ptr) (q' : list ptr)
  (d : db_table) (db : database) (job : restore_job)
  (rest : list restore_job) :
  ready_table_queue s = Some (p :: q') ->
  tables s !! p = Some d ->
  databases s !! table_database d = Some db ->
  no_longer_ready d = false ->
  restore_job_list d = job :: rest ->
  let d1 := take_job rest (set_in_ready_queue false d) in
  (table_is_ready d1 = true <->
   0 < job_count d - 1 /\ guint_inc (current_threads d) < max_threads d) /\
  exists s',
    give_me_next_data_job_conf s = Some (false, s') /\
    rj s' = Some job /\
    tables s' = <[p := set_in_ready_queue (table_is_ready d1) d1]> (tables s) /\
    ready_table_queue s' =
      Some (if table_is_ready d1 then q' ++ [p] else q') /\
    loading_table_list s' = loading_table_list s.
Proof.
  intros Hq Hp Hdb Hready Hl d1.
  pose proof (proj1 (no_longer_ready_false d) Hready)
    as (Hs & Hj & Hc & Hn & Hv & Hsq).
  split.
  { rewrite table_is_ready_iff. unfold d1. cbn.
    rewrite Hs, Hn, Hv, Hsq. tauto. }
  unfold give_me_next_data_job_conf.
  change (ready_table_queue (count_iteration s)) with (ready_table_queue s).
  rewrite Hq. cbn [mbind option_bind ready_queue_loop].
  change (tables (set_ready_table_queue (Some q') (count_iteration s)))
    with (tables s).
  rewrite Hp. cbn [mbind option_bind].
  change (no_longer_ready (set_in_ready_queue false d))
    with (no_longer_ready d).
  rewrite Hready. cbn [restore_job_list set_in_ready_queue]. rewrite Hl.
  fold d1.
  change (databases (count_iteration s)) with (databases s).
  rewrite Hdb. cbn [mbind option_bind].
  unfold enqueue_table_if_ready_locked.
  cbn [ready_table_queue count_dispatch store_table set_stats set_tables
         count_hit set_ready_table_queue tables].
  rewrite list_lookup_insert_eq by (eapply lookup_lt_Some, Hp).
  cbn [mbind option_bind].
  destruct (table_is_ready d1).
  - eexists. split; [reflexivity |].
    unfold wake_data_threads, data_control_queue_push. cbn.
    destruct (threads_waiting_mutex s), (0 <? threads_waiting s),
      (data_control_queue s); cbn;
      rewrite list_insert_insert_eq; auto.
  - eexists. split; [reflexivity |]. cbn.
    replace (set_in_ready_queue false d1) with d1 by reflexivity.
    auto.
Qed.

Lemma ready_queue_head_is_served_witness :
  exists s',
    give_me_next_data_job_conf
      (set_ready_table_queue (Some [0%nat; 1%nat])
         (initial_state
            [set_in_ready_queue true table_with_jobs;
             set_in_ready_queue true table_with_jobs] []))
    = Some (false, s') /\
    rj s' = Some (job 1) /\
    ready_table_queue s' = Some [1%nat; 0%nat].
Proof.
  destruct (ready_queue_head_is_served
              (set_ready_table_queue (Some [0%nat; 1%nat])
                 (initial_state
                    [set_in_ready_queue true table_with_jobs;
                     set_in_ready_queue true table_with_jobs] []))
              0 [1%nat] (set_in_ready_queue true table_with_jobs)
              (mk_database CREATED) (job 1) [job 2]
              eq_refl eq_refl eq_refl eq_refl eq_refl)
    as (_ & s' & Hrun & Hrj & _ & Hq & _).
  exists s'. split; [exact Hrun |]. split; [exact Hrj | exact Hq].
Defined.

(** ** Giving up *)

Lemma ready_queue_loop_empties (q : list ptr) :
  forall (s s' : state),
    ready_table_queue s = Some q ->
    ready_queue_loop q s = Some (QueueEmpty s') ->
    ready_table_queue s' = Some [].
Proof.
  induction q as [| p q IH]; intros s s' Hq Hrun.
  - injection Hrun as <-. exact Hq.
  - cbn [ready_queue_loop] in Hrun.
    change (tables (set_ready_table_queue (Some q) s)) with (tables s) in Hrun.
    destruct (tables s !! p) as [d0 |]; [| discriminate Hrun].
    cbn [mbind option_bind] in Hrun.
    destruct (no_longer_ready (set_in_ready_queue false d0)).
    + destruct (queue_data_done _ _);
        (eapply IH; [| exact Hrun]); reflexivity.
    + destruct (restore_job_list (set_in_ready_queue false d0));
        [discriminate Hrun |].
      apply bind_Some in Hrun. destruct Hrun as (db & _ & Hrun).
      apply bind_Some in Hrun. destruct Hrun as (s3 & _ & [=]).
Qed.

Lemma quiet_terminal (aje : bool) (d d' : db_table) :
  quiet aje d d' -> terminal_for_data d = true -> terminal_for_data d' = true.
Proof.
  intros [b | b ? ? ? ? ? | b ? ? ?]; cbn; auto.
Qed.

Lemma skipped_or_terminal_reached (s0 s : state) (p : ptr) :
  reached s0 s -> skipped_or_terminal s0 p -> skipped_or_terminal s p.
Proof.
  intros [Hg Ht _] (d & db & Hp & Hdb & Hwhy).
  unfold globals in Hg. injection Hg as _ _ _ _ _ Hd.
  destruct (Forall2_lookup_l _ _ _ _ _ Ht Hp) as (d' & Hp' & Hq).
  exists d', db. split; [exact Hp' |].
  rewrite Hd, (quiet_database _ _ _ Hq). split; [exact Hdb |].
  destruct Hwhy as [Hnf | Hterm]; [left; exact Hnf | right].
  eapply quiet_terminal; eassumption.
Qed.

Lemma scan_table_list_giveup (l : list ptr) :
  forall (g : bool) (s : state) (oj : option restore_job) (s' : state),
    scan_table_list l g s = Some (true, oj, s') ->
    g = true /\ oj = None /\ ready_table_queue s' = ready_table_queue s /\
    Forall (skipped_or_terminal s') l.
Proof.
  induction l as [| p l IH]; intros g s oj s' Hrun.
  - injection Hrun as <- <- <-. auto.
  - pose proof Hrun as Hstep. cbn [scan_table_list] in Hstep.
    destruct (tables s !! p) as [d |] eqn:Hp; [| discriminate Hstep].
    cbn [mbind option_bind] in Hstep.
    destruct (databases s !! table_database d) as [db |] eqn:Hdb;
      [| discriminate Hstep].
    cbn [mbind option_bind] in Hstep.
    (* what remains to show once the rest of the list has been scanned
       from a state [s1] in which [p] is skipped or terminal *)
    assert (Hrest : forall s1,
              skipped_or_terminal s1 p ->
              ready_table_queue s1 = ready_table_queue s ->
              scan_table_list l g s1 = Some (true, oj, s') ->
              g = true /\ oj = None /\
              ready_table_queue s' = ready_table_queue s /\
              Forall (skipped_or_terminal s') (p :: l)).
    { intros s1 Hskip Hq1 Hscan.
      destruct (IH _ _ _ _ Hscan) as (Hg & Hoj & Hq & Hall).
      split; [exact Hg |]. split; [exact Hoj |].
      split; [congruence |]. constructor; [| exact Hall].
      pose proof (scan_table_list_post s1 _ _ _ _ _ _ (reached_refl s1)
                    Hscan) as [_ Hpost].
      rewrite Hoj in Hpost.
      eapply skipped_or_terminal_reached; eassumption. }
    assert (Hfalse : scan_table_list l false s = Some (true, oj, s') ->
                     g = true /\ oj = None /\
                     ready_table_queue s' = ready_table_queue s /\
                     Forall (skipped_or_terminal s') (p :: l)).
    { intros Hscan. destruct (IH _ _ _ _ Hscan) as (Hg & _).
      discriminate Hg. }
    destruct (status_eq (database_schema_state db) NOT_FOUND) eqn:Hnf.
    { apply (Hrest s); [| reflexivity | exact Hstep].
      exists d, db. apply status_eq_true in Hnf. auto. }
    destruct (status_ge (schema_state d) DATA_DONE
              || status_eq (schema_state d) CREATED
                 && (is_view d || is_sequence d)) eqn:Hterm.
    { apply (Hrest s); [| reflexivity | exact Hstep].
      exists d, db. auto. }
    destruct (negb (status_eq (schema_state d) CREATED));
      [exact (Hfalse Hstep) |].
    destruct (0 <? job_count d).
    + destruct (no_data d).
      * apply (Hrest _) in Hstep; [exact Hstep | | reflexivity].
        exists (set_schema_state ALL_DONE
                  (set_restore_job_list
                     (map g_free_drj (restore_job_list d)) d)), db.
        split; [| split; [exact Hdb | right; reflexivity]].
        cbn. apply list_lookup_insert_eq. eapply lookup_lt_Some, Hp.
      * destruct (max_threads d <=? current_threads d);
          [exact (Hfalse Hstep) |].
        destruct (restore_job_list d); [discriminate Hstep |].
        apply bind_Some in Hstep. destruct Hstep as (s2 & _ & [=]).
    + destruct (scan_data_done _ _); [| exact (Hfalse Hstep)].
      apply (Hrest _) in Hstep; [exact Hstep | | reflexivity].
      exists (set_schema_state DATA_DONE d), db.
      split; [| split; [exact Hdb | right; reflexivity]].
      cbn. apply list_lookup_insert_eq. eapply lookup_lt_Some, Hp.
Qed.

Lemma give_me_next_data_job_conf_all_skipped (s : state) :
  ready_table_queue s = Some [] ->
  Forall (skipped_or_terminal s) (loading_table_list s) ->
  give_me_next_data_job_conf s = Some (true, set_rj None (count_iteration s)).
Proof.
  intros Hq Hall. unfold give_me_next_data_job_conf.
  change (ready_table_queue (count_iteration s)) with (ready_table_queue s).
  rewrite Hq. cbn [mbind option_bind ready_queue_loop].
  rewrite scan_table_list_all_skipped; [reflexivity |].
  eapply Forall_impl; [exact Hall |].
  intros p (d & db & Hp & Hdb & Hwhy). exists d, db. auto.
Qed.

(** X13. Giving up is final.  When [give_me_next_data_job_conf] returns
    [giveup = TRUE], it has found no job, the ready queue is empty, and
    every table of the loading list belongs to a NOT_FOUND database or is
    terminal for data; asked again on the state it left, it gives up again
    and changes nothing but the iteration counter. *)
Theorem giveup_is_final (s s' : state) :
  give_me_next_data_job_conf s = Some (true, s') ->
  rj s' = None /\
  ready_table_queue s' = Some [] /\
  Forall (skipped_or_terminal s') (loading_table_list s') /\
  give_me_next_data_job_conf s' = Some (true, count_iteration s').
Proof.
  intros Hrun.
  assert (Hfacts : rj s' = None /\ ready_table_queue s' = Some [] /\
                   Forall (skipped_or_terminal s') (loading_table_list s')).
  { pose proof (globals_after_call _ _ _ Hrun) as Hg.
    unfold globals in Hg. injection Hg as _ _ _ _ Hload _.
    unfold give_me_next_data_job_conf in Hrun.
    apply bind_Some in Hrun. destruct Hrun as (q & Hq & Hrun).
    apply bind_Some in Hrun. destruct Hrun as (o & Hloop & Hrun).
    destruct o as [s1 | s1]; [discriminate Hrun |].
    apply bind_Some in Hrun. destruct Hrun as ([[g1 oj] s2] & Hscan & Hrun).
    injection Hrun as -> <-.
    pose proof (ready_queue_loop_empties q _ _ Hq Hloop) as Hq1.
    pose proof (ready_queue_loop_post (count_iteration s) q _ _
                  (reached_refl _) Hloop) as [[Hg1 _ _] _].
    unfold globals in Hg1. injection Hg1 as _ _ _ _ Hl1 _.
    destruct (scan_table_list_giveup _ _ _ _ _ Hscan)
      as (_ & -> & Hq2 & Hall).
    split; [reflexivity |]. split; [cbn; congruence |].
    cbn in Hload, Hl1.
    change (Forall (skipped_or_terminal s2) (loading_table_list s2)).
    rewrite Hload, <- Hl1. exact Hall. }
  destruct Hfacts as (Hrj & Hq & Hall).
  repeat split; try assumption.
  rewrite (give_me_next_data_job_conf_all_skipped s' Hq Hall).
  do 2 f_equal. destruct s'; cbn in *. subst. reflexivity.
Qed.

Lemma giveup_is_final_witness :
  exists s',
    give_me_next_data_job_conf
      (set_all_jobs_are_enqueued true
         (initial_state [table_drained; table_orphan] [0%nat; 1%nat]))
    = Some (true, s') /\
    give_me_next_data_job_conf s' = Some (true, count_iteration s').
Proof.
  assert (Hrun : exists s',
             give_me_next_data_job_conf
               (set_all_jobs_are_enqueued true
                  (initial_state [table_drained; table_orphan]
                     [0%nat; 1%nat]))
             = Some (true, s')).
  { eexists. vm_compute. reflexivity. }
  destruct Hrun as (s' & Hrun). exists s'. split; [exact Hrun |].
  apply (giveup_is_final _ _ Hrun).
Defined.

(** ** Order of the jobs of a table *)

Lemma pending_ids_after_call (s s' : state) (g : bool) (p : ptr)
  (d d' : db_table) :
  give_me_next_data_job_conf s = Some (g, s') ->
  tables s !! p = Some d ->
  tables s' !! p = Some d' ->
  exists taken : list N,
    map rj_id (restore_job_list d)
    = taken ++ map rj_id (restore_job_list d') /\
    (length taken <= 1)%nat.
Proof.
  intros Hrun Hp Hp'.
  destruct (table_after_call _ _ _ _ _ _ Hrun Hp Hp')
    as [Hq | (job & _ & Hd)].
  - exists []. split; [| cbn; lia].
    destruct Hq as [b | b ? ? ? ? ? | b ? ? ?]; cbn; try reflexivity.
    rewrite map_map. apply map_ext. intros j. reflexivity.
  - exists [rj_id job]. split; [| cbn; lia].
    rewrite (dispatch_jobs _ _ _ Hd). reflexivity.
Qed.

(** X14. The jobs of a table leave in the order they were queued.  Over
    any number of calls in a row, the identifiers of the pending jobs of a
    table after the calls form a suffix of those before: nothing is
    inserted or reordered, and at most one job per call is taken from the
    head. *)
Theorem pending_jobs_leave_from_the_head (k : nat) :
  forall (s s' : state) (p : ptr) (d d' : db_table),
    repeat_calls k s = Some s' ->
    tables s !! p = Some d ->
    tables s' !! p = Some d' ->
    exists taken : list N,
      map rj_id (restore_job_list d)
      = taken ++ map rj_id (restore_job_list d') /\
      (length taken <= k)%nat.
Proof.
  induction k as [| k IH]; intros s s' p d d' Hrun Hp Hp'.
  - injection Hrun as <-. exists []. split; [| reflexivity].
    rewrite Hp in Hp'. injection Hp' as <-. reflexivity.
  - cbn [repeat_calls] in Hrun.
    apply bind_Some in Hrun. destruct Hrun as ([g s1] & Hcall & Hrun).
    cbn [snd] in Hrun.
    destruct (proj2 (lookup_lt_is_Some (tables s1) p)) as [d1 Hp1].
    { rewrite (tables_length_after_call _ _ _ Hcall).
      eapply lookup_lt_Some, Hp. }
    destruct (pending_ids_after_call _ _ _ _ _ _ Hcall Hp Hp1)
      as (t1 & Ht1 & Hl1).
    destruct (IH _ _ _ _ _ Hrun Hp1 Hp') as (t2 & Ht2 & Hl2).
    exists (t1 ++ t2). split.
    + rewrite Ht1, Ht2, app_assoc. reflexivity.
    + rewrite length_app. lia.
Qed.

Lemma pending_jobs_leave_from_the_head_witness :
  exists s' d',
    repeat_calls 2 (initial_state [table_with_jobs] [0%nat]) = Some s' /\
    tables s' !! 0%nat = Some d' /\
    exists taken,
      [1; 2] = taken ++ map rj_id (restore_job_list d').
Proof.
  assert (Hrun : exists s',
             repeat_calls 2 (initial_state [table_with_jobs] [0%nat])
             = Some s' /\ is_Some (tables s' !! 0%nat)).
  { eexists. split; [vm_compute; reflexivity |]. eexists. reflexivity. }
  destruct Hrun as (s' & Hrun & [d' Hp']).
  exists s', d'. split; [exact Hrun |]. split; [exact Hp' |].
  destruct (pending_jobs_leave_from_the_head 2 _ _ 0 table_with_jobs d'
              Hrun eq_refl Hp') as (taken & Htaken & _).
  exists taken. exact Htaken.
Defined.

(** ** No eligible table is left waiting *)

Ltac scan_goes_on Hnext Hrun :=
  refine (Hnext _ _ _ _ Hrun);
  [first [left; reflexivity | right; eexists; reflexivity] | reflexivity].

Lemma scan_table_list_serves (l : list ptr) :
  forall (g : bool) (s : state) (g' : bool) (oj : option restore_job)
         (s' : state) (p : ptr) (d : db_table) (db : database),
    scan_table_list l g s = Some (g', oj, s') ->
    p ∈ l ->
    tables s !! p = Some d ->
    databases s !! table_database d = Some db ->
    database_schema_state db <> NOT_FOUND ->
    no_longer_ready d = false ->
    oj <> None.
Proof.
  induction l as [| q l IH];
    intros g s g' oj s' p d db Hrun Hin Hp Hdb Hnf Hready;
    [inversion Hin |].
  destruct (decide (q = p)) as [-> | Hne].
  - clear IH Hin. cbn [scan_table_list] in Hrun.
    rewrite Hp in Hrun. cbn [mbind option_bind] in Hrun.
    rewrite Hdb in Hrun. cbn [mbind option_bind] in Hrun.
    apply status_eq_false in Hnf. rewrite Hnf in Hrun.
    apply no_longer_ready_false in Hready.
    destruct Hready as (Hs & Hj & Hc & Hn & Hv & Hsq).
    rewrite Hs, Hv, Hsq, Hn in Hrun. cbn in Hrun.
    apply N.ltb_lt in Hj. rewrite Hj in Hrun.
    apply N.leb_gt in Hc. rewrite Hc in Hrun.
    destruct (restore_job_list d); [discriminate Hrun |].
    apply bind_Some in Hrun. destruct Hrun as (s2 & _ & [= _ <- _]).
    discriminate.
  - apply elem_of_cons in Hin. destruct Hin as [-> | Hin]; [congruence |].
    assert (Hnext : forall g1 s1,
              tables s1 = tables s \/
              (exists e, tables s1 = <[q := e]> (tables s)) ->
              databases s1 = databases s ->
              scan_table_list l g1 s1 = Some (g', oj, s') -> oj <> None).
    { intros g1 s1 Ht Hd Hscan.
      apply (IH _ _ _ _ _ p d db Hscan Hin); try assumption.
      - destruct Ht as [-> | [e ->]]; [exact Hp |].
        rewrite list_lookup_insert_ne by exact Hne. exact Hp.
      - rewrite Hd. exact Hdb. }
    cbn [scan_table_list] in Hrun.
    destruct (tables s !! q) as [dq |]; [| discriminate Hrun].
    cbn [mbind option_bind] in Hrun.
    destruct (databases s !! table_database dq) as [dbq |];
      [| discriminate Hrun].
    cbn [mbind option_bind] in Hrun.
    destruct (status_eq (database_schema_state dbq) NOT_FOUND);
      [scan_goes_on Hnext Hrun |].
    destruct (status_ge (schema_state dq) DATA_DONE
              || status_eq (schema_state dq) CREATED
                 && (is_view dq || is_sequence dq));
      [scan_goes_on Hnext Hrun |].
    destruct (negb (status_eq (schema_state dq) CREATED));
      [scan_goes_on Hnext Hrun |].
    destruct (0 <? job_count dq).
    + destruct (no_data dq).
      * scan_goes_on Hnext Hrun.
      * destruct (max_threads dq <=? current_threads dq);
          [scan_goes_on Hnext Hrun |].
        destruct (restore_job_list dq); [discriminate Hrun |].
        apply bind_Some in Hrun. destruct Hrun as (s2 & _ & [= _ <- _]).
        discriminate.
    + destruct (scan_data_done _ _);
        [scan_goes_on Hnext Hrun
        | scan_goes_on Hnext Hrun].
Qed.

(** X15. No eligible table is left waiting.  If the loading list holds a
    table that is CREATED, has a pending job, is below its thread limit,
    is a base table with [no_data] off, and whose database is not
    NOT_FOUND, then a call that returns does hand out a job (from that
    table or from another one) and returns [giveup = FALSE]. *)
Theorem eligible_table_gets_a_job (s s' : state) (g : bool) (p : ptr)
  (d : db_table) (db : database) :
  give_me_next_data_job_conf s = Some (g, s') ->
  p ∈ loading_table_list s ->
  tables s !! p = Some d ->
  databases s !! table_database d = Some db ->
  database_schema_state db <> NOT_FOUND ->
  no_longer_ready d = false ->
  rj s' <> None /\ g = false.
Proof.
  intros Hrun Hin Hp Hdb Hnf Hready.
  assert (Hrj : rj s' <> None).
  { unfold give_me_next_data_job_conf in Hrun.
    apply bind_Some in Hrun. destruct Hrun as (q & Hq & Hrun).
    apply bind_Some in Hrun. destruct Hrun as (o & Hloop & Hrun).
    pose proof (ready_queue_loop_post (count_iteration s) q _ _
                  (reached_refl _) Hloop) as Hpost.
    destruct o as [s1 | s1].
    - injection Hrun as <- <-. destruct Hpost as (job & _ & -> & _).
      discriminate.
    - destruct Hpost as [[Hg Ht _] _].
      unfold globals in Hg. injection Hg as _ _ _ _ Hl Hd.
      cbn in Hl, Hd, Ht.
      apply bind_Some in Hrun.
      destruct Hrun as ([[g1 oj] s2] & Hscan & Hrun).
      injection Hrun as <- <-. cbn.
      destruct (Forall2_lookup_l _ _ _ _ _ Ht Hp) as (d1 & Hp1 & Hquiet).
      apply no_longer_ready_false in Hready.
      destruct Hready as (Hs & Hj & Hc & Hn & Hv & Hsq).
      assert (Hd1 : exists b, d1 = set_in_ready_queue b d).
      { destruct Hquiet as [b | b ? Hj0 ? ? ? | b ? ? Hn1].
        - exists b. reflexivity.
        - rewrite Hj0 in Hj. lia.
        - rewrite Hn1 in Hn. discriminate Hn. }
      destruct Hd1 as [b ->].
      apply (scan_table_list_serves _ _ _ _ _ _ p
               (set_in_ready_queue b d) db Hscan).
      + rewrite Hl. exact Hin.
      + exact Hp1.
      + rewrite Hd. exact Hdb.
      + exact Hnf.
      + apply no_longer_ready_false. cbn. auto 10. }
  split; [exact Hrj |].
  pose proof (give_me_next_data_job_conf_post _ _ _ Hrun) as Hpost.
  destruct (rj s'); [apply Hpost | contradiction].
Qed.

Lemma eligible_table_gets_a_job_witness :
  exists g s',
    give_me_next_data_job_conf
      (initial_state [table_orphan; table_with_jobs] [0%nat; 1%nat])
    = Some (g, s') /\
    rj s' <> None /\ g = false.
Proof.
  assert (Hrun : exists r,
             give_me_next_data_job_conf
               (initial_state [table_orphan; table_with_jobs]
                  [0%nat; 1%nat]) = Some r).
  { eexists. vm_compute. reflexivity. }
  destruct Hrun as ([g s'] & Hrun). exists g, s'.
  split; [exact Hrun |].
  apply (eligible_table_gets_a_job _ _ _ 1 table_with_jobs
           (mk_database CREATED) Hrun).
  - apply list_elem_of_In. cbn. auto.
  - reflexivity.
  - reflexivity.
  - discriminate.
  - reflexivity.
Defined.

(** ** Why a loader is parked *)

Lemma waiting_reached (s0 s : state) (p : ptr) :
  reached s0 s -> waiting s0 p -> waiting s p.
Proof.
  intros [Hg Ht _] (d & db & Hp & Hdb & Hnf & Hterm & Hwhy).
  unfold globals in Hg. injection Hg as _ Haje _ _ _ Hd.
  destruct (Forall2_lookup_l _ _ _ _ _ Ht Hp) as (d' & Hp' & Hq).
  exists d', db. split; [exact Hp' |].
  rewrite Hd, (quiet_database _ _ _ Hq), Haje. split; [exact Hdb |].
  split; [exact Hnf |].
  destruct Hq as [b | b Hs Hj Hc Hr Ha | b Hs Hj Hn].
  - auto.
  - exfalso. destruct Hwhy as [Hne | [(Hpos & _) | (_ & Hnot)]].
    + contradiction.
    + rewrite Hj in Hpos. lia.
    + unfold scan_data_done in Hnot. rewrite Ha, Hc, Hr in Hnot.
      discriminate Hnot.
  - exfalso. destruct Hwhy as [Hne | [(_ & Hno & _) | (Hzero & _)]].
    + contradiction.
    + rewrite Hn in Hno. discriminate Hno.
    + rewrite Hzero in Hj. lia.
Qed.

Lemma scan_table_list_parks (l : list ptr) :
  forall (g : bool) (s : state) (s' : state),
    scan_table_list l g s = Some (false, None, s') ->
    g = false \/ exists p, p ∈ l /\ waiting s' p.
Proof.
  induction l as [| p l IH]; intros g s s' Hrun.
  - injection Hrun as -> <-. left. reflexivity.
  - pose proof Hrun as Hstep. cbn [scan_table_list] in Hstep.
    destruct (tables s !! p) as [d |] eqn:Hp; [| discriminate Hstep].
    cbn [mbind option_bind] in Hstep.
    destruct (databases s !! table_database d) as [db |] eqn:Hdb;
      [| discriminate Hstep].
    cbn [mbind option_bind] in Hstep.
    assert (Hskip : forall s1,
              scan_table_list l g s1 = Some (false, None, s') ->
              g = false \/ exists p0, p0 ∈ p :: l /\ waiting s' p0).
    { intros s1 Hscan.
      destruct (IH _ _ _ Hscan) as [Hg | (p0 & Hin & Hw)];
        [left; exact Hg | right].
      exists p0. split; [apply elem_of_cons; right; exact Hin | exact Hw]. }
    assert (Hwait : waiting s p ->
              scan_table_list l false s = Some (false, None, s') ->
              g = false \/ exists p0, p0 ∈ p :: l /\ waiting s' p0).
    { intros Hw Hscan. right. exists p.
      split; [apply elem_of_cons; left; reflexivity |].
      pose proof (scan_table_list_post s _ _ _ _ _ _ (reached_refl s)
                    Hscan) as [_ Hpost].
      eapply waiting_reached; eassumption. }
    destruct (status_eq (database_schema_state db) NOT_FOUND) eqn:Hnf;
      [exact (Hskip _ Hstep) |].
    apply status_eq_false in Hnf.
    destruct (status_ge (schema_state d) DATA_DONE
              || status_eq (schema_state d) CREATED
                 && (is_view d || is_sequence d)) eqn:Hterm;
      [exact (Hskip _ Hstep) |].
    assert (Hterm' : terminal_for_data d = false) by exact Hterm.
    destruct (status_eq (schema_state d) CREATED) eqn:Hs; cbn [negb] in Hstep.
    2:{ apply Hwait; [| exact Hstep].
        exists d, db. apply status_eq_false in Hs.
        repeat split; try assumption. left. exact Hs. }
    destruct (0 <? job_count d) eqn:Hj.
    + apply N.ltb_lt in Hj.
      destruct (no_data d) eqn:Hn; [exact (Hskip _ Hstep) |].
      destruct (max_threads d <=? current_threads d) eqn:Hc.
      * apply Hwait; [| exact Hstep].
        apply N.leb_le in Hc. exists d, db.
        repeat split; try assumption. right. left. auto.
      * destruct (restore_job_list d); [discriminate Hstep |].
        apply bind_Some in Hstep. destruct Hstep as (s2 & _ & [=]).
    + apply N.ltb_ge in Hj.
      destruct (scan_data_done (all_jobs_are_enqueued s) d) eqn:Hdone;
        [exact (Hskip _ Hstep) |].
      apply Hwait; [| exact Hstep].
      exists d, db. repeat split; try assumption.
      right. right. split; [lia | exact Hdone].
Qed.

(** X16. A loader is parked only for a reason.  When a call returns no job
    and [giveup = FALSE], the loading list holds a table whose database was
    found, that is not terminal for data, and that waits for its schema to
    be created, for a thread slot ([current_threads >= max_threads] with
    jobs pending), or for jobs still to come or to be acknowledged. *)
Theorem parked_only_while_a_table_waits (s s' : state) :
  give_me_next_data_job_conf s = Some (false, s') ->
  rj s' = None ->
  exists p : ptr, p ∈ loading_table_list s' /\ waiting s' p.
Proof.
  intros Hrun Hrj.
  pose proof (globals_after_call _ _ _ Hrun) as Hg.
  unfold globals in Hg. injection Hg as _ _ _ _ Hload _.
  unfold give_me_next_data_job_conf in Hrun.
  apply bind_Some in Hrun. destruct Hrun as (q & Hq & Hrun).
  apply bind_Some in Hrun. destruct Hrun as (o & Hloop & Hrun).
  pose proof (ready_queue_loop_post (count_iteration s) q _ _
                (reached_refl _) Hloop) as Hpost.
  destruct o as [s1 | s1].
  - injection Hrun as <-. destruct Hpost as (job & _ & Hsome & _).
    rewrite Hsome in Hrj. discriminate Hrj.
  - destruct Hpost as [[Hg1 _ _] _].
    unfold globals in Hg1. injection Hg1 as _ _ _ _ Hl1 _.
    apply bind_Some in Hrun. destruct Hrun as ([[g1 oj] s2] & Hscan & Hrun).
    injection Hrun as -> <-. cbn in Hrj. subst oj.
    destruct (scan_table_list_parks _ _ _ _ Hscan)
      as [Hg | (p & Hin & Hw)]; [discriminate Hg |].
    exists p. split; [| exact Hw].
    cbn in Hload, Hl1.
    change (p ∈ loading_table_list s2). rewrite Hload, <- Hl1. exact Hin.
Qed.

Lemma parked_only_while_a_table_waits_witness :
  exists s' p,
    give_me_next_data_job_conf
      (initial_state [mk_db_table 0 NOT_CREATED 1 0 4 false false false
                        false [job 1] 1] [0%nat])
    = Some (false, s') /\
    p ∈ loading_table_list s' /\ waiting s' p.
Proof.
  assert (Hrun : exists s',
             give_me_next_data_job_conf
               (initial_state [mk_db_table 0 NOT_CREATED 1 0 4 false false
                                 false false [job 1] 1] [0%nat])
             = Some (false, s') /\ rj s' = None).
  { eexists. split; vm_compute; reflexivity. }
  destruct Hrun as (s' & Hrun & Hrj).
  destruct (parked_only_while_a_table_waits _ _ Hrun Hrj) as (p & Hin & Hw).
  exists s', p. auto.
Defined.
